(** * Invoicely-Pro: invoice totals, line-item editing and document rendering

    A shallow embedding of the deterministic parts of the application:

    - the line-item editor shared by [NewInvoice] (pages/NewInvoice) and
      [InvoiceEditor] (components/Invoice/InvoiceEditor): [addItem],
      [removeItem], [updateItem], [calculateTotals] and the change handlers
      of the form;
    - the summary display ([toFixed]);
    - the PDF document of utils/pdfGenerator ([createStyles], [InvoicePDF])
      and its two output modes ([downloadInvoicePDF], [printInvoice]).

    JavaScript numbers are IEEE 754 binary64 values; they are modelled by
    Rocq's primitive [float], whose operations are the same binary64
    operations (round to nearest, ties to even). *)

From Stdlib Require Import ZArith List String Ascii Bool Lia.
From Stdlib Require Import Floats DecimalString DecimalPos DecimalN.
Import ListNotations.

Local Open Scope string_scope.
Local Open Scope list_scope.
Local Open Scope float_scope.
#[local] Set Warnings "-inexact-float,-register-all".

(** ** The host language *)

Module JS.

Definition number := float.

(** [ToBoolean] of a Number: [NaN], [+0] and [-0] are falsy. *)
Definition truthy (x : number) : bool := negb (is_nan x || is_zero x).

(** [a || b] on numbers. *)
Definition or (a b : number) : number := if truthy a then a else b.

(** [ToBoolean] of a [string | null]: [null] and the empty string are
    falsy. *)
Definition truthy_str (s : option string) : bool :=
  match s with
  | None => false
  | Some s => negb (String.eqb s "")
  end.

(** [a || b] for [a : string | null] and [b : string]. *)
Definition or_str (a : option string) (b : string) : string :=
  match a with
  | Some s => if truthy_str a then s else b
  | None => b
  end.

End JS.

Import JS.

(** ** Built-in functions of ECMAScript *)

Module ES.

(** *** [Number.prototype.toFixed] *)

(** The decimal digits of a non-negative integer, without leading zeros
    (["0"] for zero). *)
Definition decimal (n : Z) : string :=
  NilEmpty.string_of_uint (N.to_uint (Z.to_N n)).

Fixpoint zeros (k : nat) : string :=
  match k with
  | O => ""
  | S k => String "0" (zeros k)
  end.

(** Steps 11.b and 11.c: the digits of [n], padded on the left with zeros
    to at least [f + 1] digits, with a point before the last [f]. *)
Definition fixed_digits (n : Z) (f : nat) : string :=
  let m := decimal n in
  let m := (zeros (S f - String.length m) ++ m)%string in
  match f with
  | O => m
  | _ =>
      let k := String.length m in
      (substring 0 (k - f) m ++ "." ++ substring (k - f) f m)%string
  end.

(** Step 11.a for the real number [m * 2^e], [m > 0]: the integer [n] for
    which [n / 10^f] is closest to it, the larger one on a tie, that is
    the floor of [m * 2^e * 10^f + 1/2]. *)
Definition nearest (m : positive) (e : Z) (f : nat) : Z :=
  let scaled := (Z.pos m * 10 ^ Z.of_nat f)%Z in
  match e with
  | Zneg k => ((2 * scaled + 2 ^ Z.pos k) / 2 ^ (Z.pos k + 1))%Z
  | _ => (scaled * 2 ^ e)%Z
  end.

(** Step 10: [m * 2^e >= 10^21]. *)
Definition at_least_1e21 (m : positive) (e : Z) : bool :=
  match e with
  | Zneg k => (10 ^ 21 * 2 ^ Z.pos k <=? Z.pos m)%Z
  | _ => (10 ^ 21 <=? Z.pos m * 2 ^ e)%Z
  end.

Section ToString.

(** [Number::toString(x, 10)], the shortest decimal that reads back as
    [x]; used by [toFixed] only outside the range it formats itself. *)
Variable numberToString : number -> string.

(** [x.toFixed(f)] for [0 <= f <= 100]. *)
Definition toFixed (x : number) (f : nat) : string :=
  match Prim2SF x with
  | S754_nan | S754_infinity _ => numberToString x
  | S754_zero _ => fixed_digits 0 f
  | S754_finite s m e =>
      let sign := if s then "-" else "" in
      if at_least_1e21 m e
      then (sign ++ numberToString (abs x))%string
      else (sign ++ fixed_digits (nearest m e f) f)%string
  end.

End ToString.

(** *** [String.prototype.toUpperCase], on the letters a to z *)

Definition upper (c : ascii) : ascii :=
  let n := N_of_ascii c in
  if ((97 <=? n) && (n <=? 122))%N then ascii_of_N (n - 32) else c.

Fixpoint toUpperCase (s : string) : string :=
  match s with
  | String c r => String (upper c) (toUpperCase r)
  | EmptyString => EmptyString
  end.

(** *** [parseFloat] *)

(** Strings are read as sequences of code units in the range
    U+0000..U+00FF. *)
Definition code (c : ascii) : N := N_of_ascii c.

(** [StrWhiteSpaceChar]: white space and line terminators (TAB, LF, VT,
    FF, CR, SP, NBSP among the code units below U+0100). *)
Definition isWhiteSpace (c : ascii) : bool :=
  let n := code c in
  ((9 <=? n) && (n <=? 13) || (n =? 32) || (n =? 160))%N.

Definition isDigit (c : ascii) : bool :=
  let n := code c in ((48 <=? n) && (n <=? 57))%N.

Definition digitValue (c : ascii) : Z := Z.of_N (code c) - 48.

(** [TrimString(s, start)]. *)
Fixpoint trimStart (s : string) : string :=
  match s with
  | String c r => if isWhiteSpace c then trimStart r else s
  | EmptyString => s
  end.

(** The longest run of [DecimalDigit]s at the head of [s]: the digits
    appended to [acc] in base ten, their number added to [n], and the
    rest of the string. *)
Fixpoint decimalDigits (acc : Z) (n : Z) (s : string) : Z * Z * string :=
  match s with
  | String c r =>
      if isDigit c then decimalDigits (10 * acc + digitValue c) (n + 1) r
      else (acc, n, s)
  | EmptyString => (acc, n, s)
  end.

(** [ExponentPart] at the head of [s], if any: its value, 0 when the
    longest literal prefix stops before [s]. *)
Definition exponentPart (s : string) : Z :=
  match s with
  | String c r =>
      if (Ascii.eqb c "e" || Ascii.eqb c "E")%bool then
        match r with
        | String "+" r' =>
            let '(v, n, _) := decimalDigits 0 0 r' in if (0 <? n)%Z then v else 0%Z
        | String "-" r' =>
            let '(v, n, _) := decimalDigits 0 0 r' in if (0 <? n)%Z then (- v)%Z else 0%Z
        | _ =>
            let '(v, n, _) := decimalDigits 0 0 r in if (0 <? n)%Z then v else 0%Z
        end
      else 0%Z
  | EmptyString => 0%Z
  end.

(** The Number value of the non-negative real [m * 10^e], rounded to
    nearest, ties to even; infinite from [2^1024] on. *)
Definition ofDecimal (m : Z) (e : Z) : number :=
  match m, e with
  | Z0, _ => 0
  | _, Zneg k =>
      let '(q, e', l) := SFdiv_core_binary prec emax m 0 (10 ^ Z.pos k) 0 in
      SF2Prim (binary_round_aux prec emax false q e' l)
  | _, _ => SF2Prim (binary_normalize prec emax (m * 10 ^ e) 0 false)
  end.

(** The value of the longest prefix of [s] that is a
    [StrUnsignedDecimalLiteral]; [None] when there is no such prefix. A
    literal of more than 20 significant digits, whose rounding ECMAScript
    leaves to the implementation, is rounded from its exact value. *)
Definition unsignedLiteral (s : string) : option number :=
  if prefix "Infinity" s then Some infinity
  else
    let '(int, ni, r1) := decimalDigits 0 0 s in
    match r1 with
    | String "." r2 =>
        let '(m, nf, r3) := decimalDigits int 0 r2 in
        if ((0 <? ni) || (0 <? nf))%Z
        then Some (ofDecimal m (exponentPart r3 - nf))
        else None
    | _ =>
        if (0 <? ni)%Z then Some (ofDecimal int (exponentPart r1)) else None
    end.

(** [parseFloat(string)] on a String argument. *)
Definition parseFloat (s : string) : number :=
  match trimStart s with
  | String "-" r =>
      match unsignedLiteral r with
      | Some a => - a
      | None => nan
      end
  | String "+" r =>
      match unsignedLiteral r with
      | Some a => a
      | None => nan
      end
  | t =>
      match unsignedLiteral t with
      | Some a => a
      | None => nan
      end
  end.

End ES.

(** ** Data model *)

(** [interface InvoiceItem]. *)
Record InvoiceItem := mkItem {
  id : string;
  description : string;
  quantity : number;
  rate : number;
  amount : number
}.

(** ** The line-item editor

    [NewInvoice] and [InvoiceEditor] declare the same four closures over
    their [items] state; they are written here once, as functions of the
    current [items]. *)

(** The new row of [addItem]; [now] is the string [Date.now().toString()]. *)
Definition newItem (now : string) : InvoiceItem :=
  {| id := now; description := ""; quantity := 1; rate := 0; amount := 0 |}.

(** [setItems([...items, newItem])]. *)
Definition addItem (items : list InvoiceItem) (now : string) : list InvoiceItem :=
  items ++ [newItem now].

(** [if (items.length > 1) setItems(items.filter(item => item.id !== id))]. *)
Definition removeItem (items : list InvoiceItem) (id' : string) : list InvoiceItem :=
  if (1 <? List.length items)%nat
  then filter (fun item => negb (String.eqb (id item) id')) items
  else items.

(** The argument pair [(field, value)] of [updateItem], for the pairs that
    respect the field types of [InvoiceItem] ([field: keyof InvoiceItem],
    [value: string | number]). *)
Inductive Update :=
| SetId (value : string)
| SetDescription (value : string)
| SetQuantity (value : number)
| SetRate (value : number)
| SetAmount (value : number).

(** [{ ...item, [field]: value }]. *)
Definition assign (item : InvoiceItem) (u : Update) : InvoiceItem :=
  match u with
  | SetId v => mkItem v (description item) (quantity item) (rate item) (amount item)
  | SetDescription v => mkItem (id item) v (quantity item) (rate item) (amount item)
  | SetQuantity v => mkItem (id item) (description item) v (rate item) (amount item)
  | SetRate v => mkItem (id item) (description item) (quantity item) v (amount item)
  | SetAmount v => mkItem (id item) (description item) (quantity item) (rate item) v
  end.

(** [field === 'quantity' || field === 'rate']. *)
Definition quantity_or_rate (u : Update) : bool :=
  match u with
  | SetQuantity _ | SetRate _ => true
  | _ => false
  end.

(** The callback of [items.map] in [updateItem]. *)
Definition updateOne (id' : string) (u : Update) (item : InvoiceItem) : InvoiceItem :=
  if String.eqb (id item) id' then
    let updated := assign item u in
    if quantity_or_rate u
    then mkItem (id updated) (description updated) (quantity updated) (rate updated)
                (quantity updated * rate updated)
    else updated
  else item.

Definition updateItem (items : list InvoiceItem) (id' : string) (u : Update)
  : list InvoiceItem :=
  map (updateOne id' u) items.

(** The object returned by [calculateTotals]. *)
Record Totals := mkTotals {
  subtotal : number;
  taxAmount : number;
  total : number
}.

(** [calculateTotals], as a function of the two pieces of component state
    its body reads: [items] and [invoiceData.taxRate] ([invoiceData.tax_rate]
    in [InvoiceEditor]). [Array.prototype.reduce] with an initial value is a
    left fold. *)
Definition calculateTotals (items : list InvoiceItem) (taxRate : number) : Totals :=
  let subtotal := fold_left (fun sum item => sum + amount item) items 0 in
  let taxAmount := subtotal * (taxRate / 100) in
  let total := subtotal + taxAmount in
  mkTotals subtotal taxAmount total.

(** ** Stored records *)

Inductive Status := draft | sent | paid | overdue.

Module Invoice.
Record t := mk {
  id : string;
  invoice_number : string;
  title : string;
  status : Status;
  issue_date : string;
  due_date : string;
  subtotal : number;
  tax_rate : number;
  tax_amount : number;
  total : number;
  notes : option string;
  client_id : string
}.
End Invoice.

Module Client.
Record t := mk {
  name : string;
  email : string;
  company : option string;
  address : option string;
  phone : option string
}.
End Client.

Module Profile.
Record t := mk {
  full_name : string;
  company_name : option string;
  company_address : option string;
  phone : option string;
  email : string
}.
End Profile.

(** ** Component state

    The [useState] cells the editor closures read and write. [NewInvoice]
    names the fields of [invoiceData] [issueDate], [dueDate], [taxRate] and
    keeps the client in [selectedClient]; [InvoiceEditor] names them
    [issue_date], [due_date], [tax_rate], [client_id]. *)

Record InvoiceData := mkInvoiceData {
  title : string;
  client_id : string;
  issueDate : string;
  dueDate : string;
  notes : string;
  taxRate : number
}.

Record State := mkState {
  invoiceData : InvoiceData;
  items : list InvoiceItem
}.

(** A closure of the component: it reads the current state, may replace it
    through a setter, and returns a value. (The other cells of the
    components, such as [clients] and [loading], are not used by the
    closures modelled here.) *)
Definition Action (A : Type) : Type := State -> A * State.

Definition ret {A} (a : A) : Action A := fun s => (a, s).

Definition bind {A B} (m : Action A) (k : A -> Action B) : Action B :=
  fun s => let (a, s') := m s in k a s'.

Notation "x <- m ;; k" := (bind m (fun x => k))
  (at level 61, m at next level, right associativity).

Definition getItems : Action (list InvoiceItem) := fun s => (items s, s).
Definition getInvoiceData : Action InvoiceData := fun s => (invoiceData s, s).
Definition setItems (new : list InvoiceItem) : Action unit :=
  fun s => (tt, mkState (invoiceData s) new).
Definition setInvoiceData (new : InvoiceData) : Action unit :=
  fun s => (tt, mkState new (items s)).

Definition exec {A} (m : Action A) (s : State) : State := snd (m s).
Definition eval {A} (m : Action A) (s : State) : A := fst (m s).

(** [const calculateTotals = () => { ... }] as the component declares it. *)
Definition callCalculateTotals : Action Totals :=
  items <- getItems ;;
  invoiceData <- getInvoiceData ;;
  ret (calculateTotals items (taxRate invoiceData)).

(** The initial state of [NewInvoice]; [today] is
    [new Date().toISOString().split('T')[0]]. *)
Definition NewInvoice_initial (today : string) : State :=
  mkState (mkInvoiceData "" "" today "" "" 0)
          [mkItem "1" "" 1 0 0].

(** The initial state of [InvoiceEditor], from its props [invoice] and
    [items]. *)
Definition InvoiceEditor_initial (invoice : Invoice.t) (initialItems : list InvoiceItem)
  : State :=
  mkState (mkInvoiceData (Invoice.title invoice) (Invoice.client_id invoice)
             (Invoice.issue_date invoice) (Invoice.due_date invoice)
             (or_str (Invoice.notes invoice) "")
             (Invoice.tax_rate invoice))
          initialItems.

(** The user's actions on the form. *)
Inductive Event :=
| ClickAddItem (now : string)
| ClickRemoveItem (id' : string)
| ChangeDescription (id' : string) (value : string)
| ChangeQuantity (id' : string) (value : string)
| ChangeRate (id' : string) (value : string)
| ChangeTaxRate (value : string)
| ChangeTitle (value : string)
| ChangeClient (value : string)
| ChangeIssueDate (value : string)
| ChangeDueDate (value : string)
| ChangeNotes (value : string).

Section Handlers.

(** The global [parseFloat] of the host. *)
Variable parseFloat : string -> number.

(** [parseFloat(e.target.value) || 0]. *)
Definition parsed (value : string) : number := or (parseFloat value) 0.

(** The [onClick] and [onChange] handlers of the form. *)
Definition handle (e : Event) : Action unit :=
  match e with
  | ClickAddItem now =>
      items <- getItems ;; setItems (addItem items now)
  | ClickRemoveItem id' =>
      items <- getItems ;; setItems (removeItem items id')
  | ChangeDescription id' value =>
      items <- getItems ;; setItems (updateItem items id' (SetDescription value))
  | ChangeQuantity id' value =>
      items <- getItems ;; setItems (updateItem items id' (SetQuantity (parsed value)))
  | ChangeRate id' value =>
      items <- getItems ;; setItems (updateItem items id' (SetRate (parsed value)))
  | ChangeTaxRate value =>
      d <- getInvoiceData ;;
      setInvoiceData (mkInvoiceData (title d) (client_id d) (issueDate d) (dueDate d)
                                    (notes d) (parsed value))
  | ChangeTitle value =>
      d <- getInvoiceData ;;
      setInvoiceData (mkInvoiceData value (client_id d) (issueDate d) (dueDate d)
                                    (notes d) (taxRate d))
  | ChangeClient value =>
      d <- getInvoiceData ;;
      setInvoiceData (mkInvoiceData (title d) value (issueDate d) (dueDate d)
                                    (notes d) (taxRate d))
  | ChangeIssueDate value =>
      d <- getInvoiceData ;;
      setInvoiceData (mkInvoiceData (title d) (client_id d) value (dueDate d)
                                    (notes d) (taxRate d))
  | ChangeDueDate value =>
      d <- getInvoiceData ;;
      setInvoiceData (mkInvoiceData (title d) (client_id d) (issueDate d) value
                                    (notes d) (taxRate d))
  | ChangeNotes value =>
      d <- getInvoiceData ;;
      setInvoiceData (mkInvoiceData (title d) (client_id d) (issueDate d) (dueDate d)
                                    value (taxRate d))
  end.

Definition step (s : State) (e : Event) : State := exec (handle e) s.

(** The state after a sequence of user actions. *)
Definition run (events : list Event) (s : State) : State := fold_left step events s.

End Handlers.

(** ** The summary panel of the editor *)

Section Summary.

Variable numberToString : number -> string.

(** [${x.toFixed(2)}] in JSX text: a dollar sign and the formatted value. *)
Definition money (x : number) : string :=
  ("$" ++ ES.toFixed numberToString x 2)%string.

(** The three amounts of the "Invoice Summary" panel. *)
Definition InvoiceSummary (t : Totals) : string * string * string :=
  (money (subtotal t), money (taxAmount t), money (total t)).

End Summary.

(** ** utils/pdfGenerator *)

Inductive Format := A4 | A5.

Definition formatName (format : Format) : string :=
  match format with A4 => "A4" | A5 => "A5" end.

(** [format === 'A5']. *)
Definition isA5 (format : Format) : bool :=
  match format with A5 => true | A4 => false end.

(** A property value of a style object, or a child of a [Text] element. *)
Inductive Value := Str (s : string) | Num (n : number).

(** A style object: its properties in source order. *)
Definition Style := list (string * Value).

Module Styles.
Record t := mk {
  page : Style;
  header : Style;
  logoBox : Style;
  companyInfo : Style;
  companyName : Style;
  companyDetails : Style;
  invoiceInfo : Style;
  invoiceTitle : Style;
  invoiceNumber : Style;
  statusBadge : Style;
  section : Style;
  billTo : Style;
  billToTitle : Style;
  billToDetails : Style;
  invoiceDetails : Style;
  detailsRow : Style;
  detailsLabel : Style;
  detailsValue : Style;
  table : Style;
  tableHeader : Style;
  tableHeaderCell : Style;
  tableRow : Style;
  tableCell : Style;
  descriptionColumn : Style;
  totalsSection : Style;
  totalRow : Style;
  totalLabel : Style;
  totalValue : Style;
  grandTotalRow : Style;
  grandTotalLabel : Style;
  grandTotalValue : Style;
  notesSection : Style;
  notesTitle : Style;
  notesText : Style
}.
End Styles.

(** [createStyles]; [StyleSheet.create] returns the object it is given. *)
Definition createStyles (format : Format) : Styles.t :=
  let isA5 := isA5 format in
    {| Styles.page :=
        [("flexDirection", Str "column");
         ("backgroundColor", Str "#fff");
         ("padding", Num (if isA5 then 20 else 40));
         ("fontSize", Num (if isA5 then 9 else 12));
         ("fontFamily", Str "Helvetica")];
       Styles.header :=
        [("flexDirection", Str "row");
         ("justifyContent", Str "space-between");
         ("alignItems", Str "flex-start");
         ("marginBottom", Num (if isA5 then 18 else 28));
         ("borderBottomWidth", Num 2);
         ("borderBottomColor", Str "#e5e7eb");
         ("paddingBottom", Num (if isA5 then 8 else 12))];
       Styles.logoBox :=
        [("flex", Num 1);
         ("justifyContent", Str "flex-start")];
       Styles.companyInfo :=
        [("flex", Num 1);
         ("alignItems", Str "flex-end");
         ("textAlign", Str "right")];
       Styles.companyName :=
        [("fontSize", Num (if isA5 then 13 else 18));
         ("fontWeight", Str "bold");
         ("color", Str "#1e293b");
         ("marginBottom", Num 2)];
       Styles.companyDetails :=
        [("fontSize", Num (if isA5 then 8 else 10));
         ("color", Str "#64748b");
         ("marginBottom", Num 1)];
       Styles.invoiceInfo :=
        [("flex", Num 1);
         ("alignItems", Str "flex-end");
         ("textAlign", Str "right")];
       Styles.invoiceTitle :=
        [("fontSize", Num (if isA5 then 16 else 22));
         ("fontWeight", Str "bold");
         ("color", Str "#1e293b");
         ("marginBottom", Num 2)];
       Styles.invoiceNumber :=
        [("fontSize", Num (if isA5 then 9 else 12));
         ("color", Str "#64748b");
         ("marginBottom", Num 2)];
       Styles.statusBadge :=
        [("fontSize", Num (if isA5 then 8 else 10));
         ("fontWeight", Str "bold");
         ("color", Str "#fff");
         ("backgroundColor", Str "#64748b");
         ("borderRadius", Num 4);
         ("paddingHorizontal", Num 8);
         ("paddingVertical", Num 2);
         ("alignSelf", Str "flex-end");
         ("marginTop", Num 2)];
       Styles.section :=
        [("flexDirection", Str "row");
         ("justifyContent", Str "space-between");
         ("marginTop", Num (if isA5 then 10 else 18));
         ("marginBottom", Num (if isA5 then 10 else 18))];
       Styles.billTo :=
        [("flex", Num 1);
         ("marginRight", Num (if isA5 then 10 else 30))];
       Styles.billToTitle :=
        [("fontWeight", Str "bold");
         ("color", Str "#374151");
         ("fontSize", Num (if isA5 then 9 else 11));
         ("marginBottom", Num 3)];
       Styles.billToDetails :=
        [("fontSize", Num (if isA5 then 8 else 10));
         ("color", Str "#374151");
         ("lineHeight", Num 1.4)];
       Styles.invoiceDetails :=
        [("flex", Num 1);
         ("alignItems", Str "flex-end");
         ("textAlign", Str "right")];
       Styles.detailsRow :=
        [("flexDirection", Str "row");
         ("justifyContent", Str "space-between");
         ("marginBottom", Num 2)];
       Styles.detailsLabel :=
        [("fontSize", Num (if isA5 then 8 else 10));
         ("color", Str "#64748b");
         ("minWidth", Num 60)];
       Styles.detailsValue :=
        [("fontSize", Num (if isA5 then 8 else 10));
         ("fontWeight", Str "bold");
         ("color", Str "#1e293b")];
       Styles.table :=
        [("marginTop", Num (if isA5 then 6 else 12));
         ("marginBottom", Num (if isA5 then 12 else 18))];
       Styles.tableHeader :=
        [("flexDirection", Str "row");
         ("backgroundColor", Str "#f1f5f9");
         ("borderTopWidth", Num 1);
         ("borderBottomWidth", Num 1);
         ("borderColor", Str "#e5e7eb");
         ("paddingVertical", Num (if isA5 then 4 else 6))];
       Styles.tableHeaderCell :=
        [("fontWeight", Str "bold");
         ("color", Str "#374151");
         ("fontSize", Num (if isA5 then 8 else 10));
         ("flex", Num 1);
         ("textAlign", Str "center")];
       Styles.tableRow :=
        [("flexDirection", Str "row");
         ("borderBottomWidth", Num 1);
         ("borderBottomColor", Str "#e5e7eb");
         ("paddingVertical", Num (if isA5 then 3 else 5))];
       Styles.tableCell :=
        [("fontSize", Num (if isA5 then 8 else 10));
         ("color", Str "#374151");
         ("flex", Num 1);
         ("textAlign", Str "center")];
       Styles.descriptionColumn :=
        [("flex", Num 2);
         ("textAlign", Str "left");
         ("paddingLeft", Num 4)];
       Styles.totalsSection :=
        [("alignSelf", Str "flex-end");
         ("width", Num (if isA5 then 140 else 200));
         ("marginTop", Num (if isA5 then 8 else 12));
         ("marginBottom", Num (if isA5 then 10 else 16))];
       Styles.totalRow :=
        [("flexDirection", Str "row");
         ("justifyContent", Str "space-between");
         ("marginBottom", Num 2)];
       Styles.totalLabel :=
        [("fontSize", Num (if isA5 then 8 else 10));
         ("color", Str "#64748b")];
       Styles.totalValue :=
        [("fontSize", Num (if isA5 then 8 else 10));
         ("fontWeight", Str "bold");
         ("color", Str "#1e293b")];
       Styles.grandTotalRow :=
        [("flexDirection", Str "row");
         ("justifyContent", Str "space-between");
         ("borderTopWidth", Num 1);
         ("borderTopColor", Str "#e5e7eb");
         ("marginTop", Num 4);
         ("paddingTop", Num 4)];
       Styles.grandTotalLabel :=
        [("fontSize", Num (if isA5 then 10 else 13));
         ("fontWeight", Str "bold");
         ("color", Str "#1e293b")];
       Styles.grandTotalValue :=
        [("fontSize", Num (if isA5 then 10 else 13));
         ("fontWeight", Str "bold");
         ("color", Str "#1e293b")];
       Styles.notesSection :=
        [("marginTop", Num (if isA5 then 10 else 18));
         ("padding", Num (if isA5 then 6 else 10));
         ("backgroundColor", Str "#f9fafb");
         ("borderRadius", Num 4)];
       Styles.notesTitle :=
        [("fontWeight", Str "bold");
         ("color", Str "#374151");
         ("fontSize", Num (if isA5 then 9 else 11));
         ("marginBottom", Num 2)];
       Styles.notesText :=
        [("fontSize", Num (if isA5 then 8 else 10));
         ("color", Str "#4b5563");
         ("lineHeight", Num 1.4)] |}.

(** The [style] prop: one style object or an array of them. *)
Inductive StyleProp := Single (s : Style) | Array (ss : list Style).

(** The element tree of @react-pdf/renderer. [Falsy v] is a child
    [{v && <... />}] whose left operand [v] is [null] or the empty string.
    The [key] prop of the table rows is omitted. *)
Inductive Node :=
| Document (children : list Node)
| Page (size : Format) (style : StyleProp) (children : list Node)
| View (style : StyleProp) (children : list Node)
| Text (style : StyleProp) (children : list Value)
| Falsy (v : option string).

(** [{v && element}], the element being built from the non-empty string
    [v]. *)
Definition and_then (v : option string) (element : string -> Node) : Node :=
  match v with
  | Some s => if truthy_str v then element s else Falsy v
  | None => Falsy v
  end.

(** The string literals of [status]. *)
Definition statusName (status : Status) : string :=
  match status with
  | draft => "draft"
  | sent => "sent"
  | paid => "paid"
  | overdue => "overdue"
  end.

Definition getStatusColor (status : Status) : string :=
  match status with
  | paid => "#10b981"
  | sent => "#f59e0b"
  | overdue => "#ef4444"
  | _ => "#64748b"
  end.

Definition Blob := string.
Definition Error := string.

(** What the code asks of the browser and of @react-pdf/renderer. *)
Record Host := mkHost {
  (** [Number::toString]. *)
  numberToString : number -> string;
  (** [new Date(s).toLocaleDateString('en-US',
      { year: 'numeric', month: 'short', day: 'numeric' })]. *)
  toLocaleDateString : string -> string;
  (** [pdf(doc).toBlob()]: the promise is fulfilled with a blob or rejected. *)
  toBlob : Node -> Error + Blob;
  (** [URL.createObjectURL]. *)
  createObjectURL : Blob -> string;
  (** Whether [window.open('', '_blank')] returns a window ([true]) or
      [null] ([false]). *)
  windowOpens : bool;
  (** [document.getElementById('invoice-content')]: the [innerHTML] of the
      element, or [None] for [null]. *)
  invoiceContent : option string
}.

Section Document.

Variable host : Host.

Definition formatDate (dateString : string) : string :=
  toLocaleDateString host dateString.

Definition dollars (x : number) : list Value :=
  [Str "$"; Str (ES.toFixed (numberToString host) x 2)].

(** One row of the items table. *)
Definition tableRow (styles : Styles.t) (item : InvoiceItem) : Node :=
  View (Single (Styles.tableRow styles))
    [Text (Array [Styles.tableCell styles; Styles.descriptionColumn styles])
          [Str (description item)];
     Text (Single (Styles.tableCell styles)) [Num (quantity item)];
     Text (Single (Styles.tableCell styles)) (dollars (rate item));
     Text (Single (Styles.tableCell styles)) (dollars (amount item))].

Definition InvoicePDF (invoice : Invoice.t) (client : Client.t) (profile : Profile.t)
    (items : list InvoiceItem) (format : Format) : Node :=
  let styles := createStyles format in
  Document
    [Page format (Single (Styles.page styles))
      [ (* Header *)
        View (Single (Styles.header styles))
          [View (Single (Styles.logoBox styles))
             [Text (Single (Styles.companyName styles))
                   [Str (or_str (Profile.company_name profile) (Profile.full_name profile))];
              and_then (Profile.company_address profile)
                (fun s => Text (Single (Styles.companyDetails styles)) [Str s]);
              and_then (Profile.phone profile)
                (fun s => Text (Single (Styles.companyDetails styles)) [Str s]);
              Text (Single (Styles.companyDetails styles)) [Str (Profile.email profile)]];
           View (Single (Styles.invoiceInfo styles))
             [Text (Single (Styles.invoiceTitle styles)) [Str "INVOICE"];
              Text (Single (Styles.invoiceNumber styles))
                   [Str "#"; Str (Invoice.invoice_number invoice)];
              Text (Array [Styles.statusBadge styles;
                           [("backgroundColor", Str (getStatusColor (Invoice.status invoice)))]])
                   [Str (ES.toUpperCase (statusName (Invoice.status invoice)))]]];
        (* Bill To & Invoice Details *)
        View (Single (Styles.section styles))
          [View (Single (Styles.billTo styles))
             [Text (Single (Styles.billToTitle styles)) [Str "Bill To"];
              Text (Single (Styles.billToDetails styles)) [Str (Client.name client)];
              and_then (Client.company client)
                (fun s => Text (Single (Styles.billToDetails styles)) [Str s]);
              and_then (Client.address client)
                (fun s => Text (Single (Styles.billToDetails styles)) [Str s]);
              and_then (Client.phone client)
                (fun s => Text (Single (Styles.billToDetails styles)) [Str s]);
              Text (Single (Styles.billToDetails styles)) [Str (Client.email client)]];
           View (Single (Styles.invoiceDetails styles))
             [View (Single (Styles.detailsRow styles))
                [Text (Single (Styles.detailsLabel styles)) [Str "Issue Date:"];
                 Text (Single (Styles.detailsValue styles))
                      [Str (formatDate (Invoice.issue_date invoice))]];
              View (Single (Styles.detailsRow styles))
                [Text (Single (Styles.detailsLabel styles)) [Str "Due Date:"];
                 Text (Single (Styles.detailsValue styles))
                      [Str (formatDate (Invoice.due_date invoice))]]]];
        (* Items Table *)
        View (Single (Styles.table styles))
          (View (Single (Styles.tableHeader styles))
             [Text (Array [Styles.tableHeaderCell styles; Styles.descriptionColumn styles])
                   [Str "Description"];
              Text (Single (Styles.tableHeaderCell styles)) [Str "Qty"];
              Text (Single (Styles.tableHeaderCell styles)) [Str "Rate"];
              Text (Single (Styles.tableHeaderCell styles)) [Str "Amount"]]
           :: map (tableRow styles) items);
        (* Totals *)
        View (Single (Styles.totalsSection styles))
          [View (Single (Styles.totalRow styles))
             [Text (Single (Styles.totalLabel styles)) [Str "Subtotal:"];
              Text (Single (Styles.totalValue styles)) (dollars (Invoice.subtotal invoice))];
           View (Single (Styles.totalRow styles))
             [Text (Single (Styles.totalLabel styles))
                   [Str "Tax ("; Num (Invoice.tax_rate invoice); Str "%):"];
              Text (Single (Styles.totalValue styles)) (dollars (Invoice.tax_amount invoice))];
           View (Single (Styles.grandTotalRow styles))
             [Text (Single (Styles.grandTotalLabel styles)) [Str "Total:"];
              Text (Single (Styles.grandTotalValue styles)) (dollars (Invoice.total invoice))]];
        (* Notes *)
        and_then (Invoice.notes invoice)
          (fun notes =>
           View (Single (Styles.notesSection styles))
             [Text (Single (Styles.notesTitle styles)) [Str "Notes"];
              Text (Single (Styles.notesText styles)) [Str notes]])]].

(** The text a [Text] element shows: its children in order, numbers
    converted by [Number::toString]. *)
Definition textOf (children : list Value) : string :=
  String.concat ""
    (map (fun v => match v with Str s => s | Num n => numberToString host n end) children).

(** The texts of a document, in document order. *)
Fixpoint textContent (node : Node) : list string :=
  match node with
  | Document children => flat_map textContent children
  | Page _ _ children => flat_map textContent children
  | View _ children => flat_map textContent children
  | Text _ children => [textOf children]
  | Falsy _ => []
  end.

(** *** Output modes *)

(** What a procedure did to the browser, in order. *)
Inductive Effect :=
| AppendLink (href download : string)
| ClickLink (href download : string)
| RemoveLink
| RevokeObjectURL (url : string)
| OpenWindow
| DocumentWrite (html : string)
| DocumentClose
| WindowFocus
| WindowPrint
| WindowClose.

(** A procedure: the effects it performed, and its completion, normal
    ([inr]) or abrupt ([inl], a thrown exception or, for an [async]
    function, the rejection of the promise it returns). *)
Definition Proc (A : Type) : Type := list Effect * (Error + A).

Definition done {A} (a : A) : Proc A := ([], inr a).

Definition perform (e : Effect) : Proc unit := ([e], inr tt).

Definition andThen {A B} (m : Proc A) (k : A -> Proc B) : Proc B :=
  match m with
  | (t, inl e) => (t, inl e)
  | (t, inr a) => let (t', r) := k a in (t ++ t', r)
  end.

(** [await p] inside an [async] function: a rejection of [p] completes
    the function abruptly. *)
Definition await {A} (p : Error + A) : Proc A := ([], p).

Definition generateInvoicePDF (invoice : Invoice.t) (client : Client.t)
    (profile : Profile.t) (items : list InvoiceItem) (format : Format)
  : Error + Blob :=
  toBlob host (InvoicePDF invoice client profile items format).

Definition downloadInvoicePDF (invoice : Invoice.t) (client : Client.t)
    (profile : Profile.t) (items : list InvoiceItem) (format : Format)
  : Proc unit :=
  andThen (await (generateInvoicePDF invoice client profile items format)) (fun blob =>
  let url := createObjectURL host blob in
  let download :=
    ("invoice-" ++ Invoice.invoice_number invoice ++ "-" ++ formatName format ++ ".pdf")%string in
  andThen (perform (AppendLink url download)) (fun _ =>
  andThen (perform (ClickLink url download)) (fun _ =>
  andThen (perform RemoveLink) (fun _ =>
  perform (RevokeObjectURL url))))).

Definition dquote : string := String (ascii_of_nat 34) "".
Definition newline : string := String (ascii_of_nat 10) "".

(** The template literal written to the print window, line by line. *)
Definition printDocument (format : Format) (innerHTML : string) : string :=
  String.concat newline
      ["";
       "        <!DOCTYPE html>";
       "        <html>";
       "          <head>";
       "            <title>Invoice</title>";
       "            <style>";
       "              @page {";
       "                size: " ++ formatName format ++ ";";
       "                margin: " ++ (if isA5 format then "15mm" else "20mm") ++ ";";
       "              }";
       "              body {";
       "                font-family: Arial, sans-serif;";
       "                font-size: " ++ (if isA5 format then "10px" else "12px") ++ ";";
       "                line-height: 1.4;";
       "                color: #333;";
       "                margin: 0;";
       "                padding: 0;";
       "              }";
       "              .invoice-content {";
       "                max-width: 100%;";
       "              }";
       "              @media print {";
       "                body { -webkit-print-color-adjust: exact; }";
       "              }";
       "            </style>";
       "          </head>";
       "          <body>";
       "            <div class=" ++ dquote ++ "invoice-content" ++ dquote ++ ">" ++ innerHTML ++ "</div>";
       "          </body>";
       "        </html>";
       "      "]%string.

Definition printInvoice (format : Format) : Proc unit :=
  andThen (perform OpenWindow) (fun _ =>
  if windowOpens host then
    match invoiceContent host with
    | Some innerHTML =>
        andThen (perform (DocumentWrite (printDocument format innerHTML))) (fun _ =>
        andThen (perform DocumentClose) (fun _ =>
        andThen (perform WindowFocus) (fun _ =>
        andThen (perform WindowPrint) (fun _ =>
        perform WindowClose))))
    | None => done tt
    end
  else done tt).

End Document.

(** The document with page size and layout metrics blanked out: the
    values of [fontSize], [width] and of the [padding...] and [margin...]
    properties. *)
Definition isMetric (property : string) : bool :=
  String.eqb property "fontSize" || String.eqb property "width"
  || prefix "padding" property || prefix "margin" property.

Definition blankStyle (s : Style) : Style :=
  map (fun kv => if isMetric (fst kv) then (fst kv, Num 0) else kv) s.

Definition blankStyleProp (p : StyleProp) : StyleProp :=
  match p with
  | Single s => Single (blankStyle s)
  | Array ss => Array (map blankStyle ss)
  end.

Fixpoint blankLayout (node : Node) : Node :=
  match node with
  | Document children => Document (map blankLayout children)
  | Page _ style children => Page A4 (blankStyleProp style) (map blankLayout children)
  | View style children => View (blankStyleProp style) (map blankLayout children)
  | Text style children => Text (blankStyleProp style) children
  | Falsy v => Falsy v
  end.

(** ** pages/Invoices: the list filter *)

(** [String.prototype.toLowerCase] and [String.prototype.includes], on
    strings of code units in the range U+0000..U+00FF: the capital letters
    of that range are A to Z and U+00C0..U+00DE without the multiplication
    sign U+00D7, and each has its small letter 32 places further. *)
Module Str.

Definition lower (c : ascii) : ascii :=
  let n := N_of_ascii c in
  if (((65 <=? n) && (n <=? 90))
      || ((192 <=? n) && (n <=? 222) && negb (n =? 215)))%N
  then ascii_of_N (n + 32) else c.

Fixpoint toLowerCase (s : string) : string :=
  match s with
  | String c r => String (lower c) (toLowerCase r)
  | EmptyString => EmptyString
  end.

(** [s.includes(searchString)]: [searchString] occurs in [s] at some
    position. *)
Fixpoint includes (s searchString : string) : bool :=
  prefix searchString s
  || match s with
     | String _ r => includes r searchString
     | EmptyString => false
     end.

End Str.

(** An invoice of the list: the selected columns and the name of the
    joined client. *)
Module Listed.
Record t := mk {
  invoice : Invoice.t;
  client_name : string
}.
End Listed.

Definition matchesSearch (searchTerm : string) (invoice : Listed.t) : bool :=
  Str.includes (Str.toLowerCase (Invoice.invoice_number (Listed.invoice invoice)))
               (Str.toLowerCase searchTerm)
  || Str.includes (Str.toLowerCase (Invoice.title (Listed.invoice invoice)))
                  (Str.toLowerCase searchTerm)
  || Str.includes (Str.toLowerCase (Listed.client_name invoice))
                  (Str.toLowerCase searchTerm).

(** [statusFilter] is the value of the select box, a string. *)
Definition matchesStatus (statusFilter : string) (invoice : Listed.t) : bool :=
  String.eqb statusFilter "all"
  || String.eqb (statusName (Invoice.status (Listed.invoice invoice))) statusFilter.

Definition filteredInvoices (invoices : list Listed.t) (searchTerm statusFilter : string)
  : list Listed.t :=
  filter (fun invoice => matchesSearch searchTerm invoice && matchesStatus statusFilter invoice)
         invoices.

(** [handleDownload] of the page, over its cells [selectedInvoice],
    [client], [profile] and [invoiceItems]; it awaits the download and has
    no [catch]. *)
Definition handleDownload (host : Host) (selectedInvoice : option Invoice.t)
    (client : option Client.t) (profile : option Profile.t)
    (invoiceItems : list InvoiceItem) (format : Format) : Proc unit :=
  match selectedInvoice, client, profile with
  | Some selectedInvoice, Some client, Some profile =>
      downloadInvoicePDF host selectedInvoice client profile invoiceItems format
  | _, _, _ => done tt
  end.

(** ** Saving: pages/NewInvoice, InvoiceEditor and pages/Invoices *)

(** The object [NewInvoice] inserts into the table [invoices]. *)
Module InvoiceRow.
Record t := mk {
  user_id : string;
  client_id : string;
  invoice_number : string;
  title : string;
  status : Status;
  issue_date : string;
  due_date : string;
  subtotal : number;
  tax_rate : number;
  tax_amount : number;
  total : number;
  notes : option string
}.
End InvoiceRow.

(** An object inserted into the table [invoice_items]. *)
Module ItemRow.
Record t := mk {
  invoice_id : string;
  description : string;
  quantity : number;
  rate : number;
  amount : number
}.
End ItemRow.

(** [{ ...invoiceData, subtotal, tax_amount: taxAmount, total }], the
    object [InvoiceEditor] passes to [onSave]. *)
Module InvoiceUpdate.
Record t := mk {
  title : string;
  client_id : string;
  issue_date : string;
  due_date : string;
  notes : string;
  tax_rate : number;
  subtotal : number;
  tax_amount : number;
  total : number
}.
End InvoiceUpdate.

(** The answers of the database client: the [error] of each response
    ([None] for [null]) and, for the insert of an invoice, the [id] of the
    returned row. *)
Record Backend := mkBackend {
  insertInvoice : InvoiceRow.t -> Error + string;
  insertItems : list ItemRow.t -> option Error;
  updateInvoice : string -> InvoiceUpdate.t -> option Error;
  deleteItems : string -> option Error
}.

(** What a save handler calls, in order. *)
Inductive Call :=
| SetLoading (loading : bool)
| InsertInvoice (row : InvoiceRow.t)
| InsertItems (rows : list ItemRow.t)
| UpdateInvoice (id' : string) (row : InvoiceUpdate.t)
| DeleteItems (invoice_id : string)
| Navigate (to : string)
| ConsoleError (message : string) (error : Error)
| LoadInvoices
| SetEditingInvoice (invoice : option Invoice.t)
| SelectInvoices (user_id : string)
| SetInvoices (invoices : list Listed.t).

(** An [async] function of a page: the calls it made, and its completion,
    normal ([inr]) or a rejection ([inl]). *)
Definition Task (A : Type) : Type := list Call * (Error + A).

Definition finished {A} (a : A) : Task A := ([], inr a).

Definition call (c : Call) : Task unit := ([c], inr tt).

Definition throw {A} (error : Error) : Task A := ([], inl error).

Definition next {A B} (m : Task A) (k : A -> Task B) : Task B :=
  match m with
  | (t, inl e) => (t, inl e)
  | (t, inr a) => let (t', r) := k a in (t ++ t', r)
  end.

(** [const { data, error } = await query; if (error) throw error;]. *)
Definition query {A} (c : Call) (response : Error + A) : Task A := ([c], response).

Definition thrown (error : option Error) : Error + unit :=
  match error with
  | Some e => inl e
  | None => inr tt
  end.

(** [try { body } catch (error) { handler }]. *)
Definition tryCatch {A} (body : Task A) (handler : Error -> Task A) : Task A :=
  match body with
  | (t, inl e) => let (t', r) := handler e in (t ++ t', r)
  | (t, inr a) => (t, inr a)
  end.

(** [try { body } finally { finalizer }]: the completion of [body], unless
    the finalizer completes abruptly. *)
Definition tryFinally {A} (body : Task A) (finalizer : Task unit) : Task A :=
  match body, finalizer with
  | (t, r), (t', inr _) => (t ++ t', r)
  | (t, _), (t', inl e) => (t ++ t', inl e)
  end.

(** [generateInvoiceNumber]; [now] is the decimal string of [Date.now()]. *)
Definition generateInvoiceNumber (now : string) : string := ("INV-" ++ now)%string.

(** [items.map(item => ({ invoice_id, description: item.description, ... }))]. *)
Definition itemRows (invoice_id : string) (items : list InvoiceItem) : list ItemRow.t :=
  map (fun item => ItemRow.mk invoice_id (description item) (quantity item) (rate item)
                              (amount item))
      items.

(** The argument of [handleSave]: ['draft' | 'sent']. *)
Inductive SaveAs := AsDraft | AsSent.

Definition statusOf (status : SaveAs) : Status :=
  match status with AsDraft => draft | AsSent => sent end.

(** The object passed to [insert] in [handleSave] of [NewInvoice];
    [selectedClient] is the cell [client_id] of the state. *)
Definition newInvoiceRow (user_id now : string) (s : State) (status : SaveAs)
  : InvoiceRow.t :=
  let totals := eval callCalculateTotals s in
  let invoiceNumber := generateInvoiceNumber now in
  {| InvoiceRow.user_id := user_id;
     InvoiceRow.client_id := client_id (invoiceData s);
     InvoiceRow.invoice_number := invoiceNumber;
     InvoiceRow.title := title (invoiceData s);
     InvoiceRow.status := statusOf status;
     InvoiceRow.issue_date := issueDate (invoiceData s);
     InvoiceRow.due_date := dueDate (invoiceData s);
     InvoiceRow.subtotal := subtotal totals;
     InvoiceRow.tax_rate := taxRate (invoiceData s);
     InvoiceRow.tax_amount := taxAmount totals;
     InvoiceRow.total := total totals;
     InvoiceRow.notes :=
       if truthy_str (Some (notes (invoiceData s)))
       then Some (notes (invoiceData s)) else None |}.

(** [handleSave] of [NewInvoice]; [user_id] is [user!.id]. *)
Definition NewInvoice_handleSave (backend : Backend) (user_id now : string) (s : State)
    (status : SaveAs) : Task unit :=
  if negb (truthy_str (Some (client_id (invoiceData s))))
     || negb (truthy_str (Some (title (invoiceData s))))
  then finished tt
  else
    next (call (SetLoading true)) (fun _ =>
    tryFinally
      (tryCatch
         (let row := newInvoiceRow user_id now s status in
          next (query (InsertInvoice row) (insertInvoice backend row)) (fun invoice_id =>
          let invoiceItems := itemRows invoice_id (items s) in
          next (query (InsertItems invoiceItems) (thrown (insertItems backend invoiceItems)))
               (fun _ =>
          call (Navigate "/invoices"))))
         (fun error => call (ConsoleError "Error creating invoice:" error)))
      (call (SetLoading false))).

(** The object [handleSave] of [InvoiceEditor] passes to [onSave]. *)
Definition editedInvoice (s : State) : InvoiceUpdate.t :=
  let totals := eval callCalculateTotals s in
  {| InvoiceUpdate.title := title (invoiceData s);
     InvoiceUpdate.client_id := client_id (invoiceData s);
     InvoiceUpdate.issue_date := issueDate (invoiceData s);
     InvoiceUpdate.due_date := dueDate (invoiceData s);
     InvoiceUpdate.notes := notes (invoiceData s);
     InvoiceUpdate.tax_rate := taxRate (invoiceData s);
     InvoiceUpdate.subtotal := subtotal totals;
     InvoiceUpdate.tax_amount := taxAmount totals;
     InvoiceUpdate.total := total totals |}.

(** [handleSave] of [InvoiceEditor], with its props [onSave] and
    [onClose]. *)
Definition InvoiceEditor_handleSave
    (onSave : InvoiceUpdate.t -> list InvoiceItem -> Task unit) (onClose : Task unit)
    (s : State) : Task unit :=
  next (call (SetLoading true)) (fun _ =>
  tryFinally
    (tryCatch
       (next (onSave (editedInvoice s) (items s)) (fun _ => onClose))
       (fun error => call (ConsoleError "Error saving invoice:" error)))
    (call (SetLoading false))).

(** [handleSaveInvoice] of the page [Invoices]; [loadInvoices()] is
    started and not awaited. *)
Definition handleSaveInvoice (backend : Backend) (editingInvoice : option Invoice.t)
    (invoiceData : InvoiceUpdate.t) (items : list InvoiceItem) : Task unit :=
  match editingInvoice with
  | None => finished tt
  | Some editingInvoice =>
      let id' := Invoice.id editingInvoice in
      tryCatch
        (next (query (UpdateInvoice id' invoiceData)
                     (thrown (updateInvoice backend id' invoiceData))) (fun _ =>
         next (query (DeleteItems id') (thrown (deleteItems backend id'))) (fun _ =>
         let invoiceItems := itemRows id' items in
         next (query (InsertItems invoiceItems) (thrown (insertItems backend invoiceItems)))
              (fun _ =>
         next (call LoadInvoices) (fun _ =>
         call (SetEditingInvoice None))))))
        (fun error =>
         next (call (ConsoleError "Error saving invoice:" error)) (fun _ => throw error))
  end.

(** A row of the query of [loadInvoices]: the selected columns of the
    invoice and the name of the joined client, [None] when [inv.clients]
    is [null]. *)
Module Selected.
Record t := mk {
  invoice : Invoice.t;
  clients : option string
}.
End Selected.

(** [{ ...inv, client_name: inv.clients?.name || 'Unknown Client' }]. *)
Definition listed (inv : Selected.t) : Listed.t :=
  Listed.mk (Selected.invoice inv) (or_str (Selected.clients inv) "Unknown Client").

(** [loadInvoices]; [response] is the answer to the query, its [data]
    being [None] for [null]. *)
Definition loadInvoices (user_id : string) (response : Error + option (list Selected.t))
  : Task unit :=
  tryFinally
    (tryCatch
       (next (query (SelectInvoices user_id) response) (fun data =>
        call (SetInvoices match data with
                          | Some rows => map listed rows
                          | None => []
                          end)))
       (fun error => call (ConsoleError "Error loading invoices:" error)))
    (call (SetLoading false)).

(** The button "Save Changes" of the editor as the page [Invoices]
    renders it: [onSave={handleSaveInvoice}] and
    [onClose={() => setEditingInvoice(null)}]. *)
Definition saveChanges (backend : Backend) (editingInvoice : Invoice.t) (s : State)
  : Task unit :=
  InvoiceEditor_handleSave (handleSaveInvoice backend (Some editingInvoice))
                           (call (SetEditingInvoice None)) s.

(** ** Predicates of the specification *)

(** The amount of a line item is the product of its quantity and rate. *)
Definition derived (item : InvoiceItem) : Prop :=
  amount item = quantity item * rate item.

(** *** Exact values

    Every finite binary64 number is a whole number of units of [2^-1074],
    the distance between the smallest numbers. [units x] is that whole
    number: the real value of [x] is [units x * 2^-1074], without any
    rounding. *)
Definition units (x : number) : option Z :=
  match Prim2SF x with
  | S754_zero _ => Some 0%Z
  | S754_finite s m e => Some (cond_Zopp s (Z.pos m) * 2 ^ (e + 1074))%Z
  | _ => None
  end.

(** The exact sum of [quantity * rate] over the items, in units of
    [2^-2148]: products and sums of whole numbers, nothing rounded. *)
Fixpoint exactSumQuantityRate (items : list InvoiceItem) : option Z :=
  match items with
  | [] => Some 0%Z
  | item :: rest =>
      match units (quantity item), units (rate item), exactSumQuantityRate rest with
      | Some q, Some r, Some sum => Some (q * r + sum)%Z
      | _, _, _ => None
      end
  end.

(** [x] is the exact sum of [quantity * rate] over the items. *)
Definition isExactSum (x : number) (items : list InvoiceItem) : bool :=
  match units x, exactSumQuantityRate items with
  | Some u, Some sum => (u * 2 ^ 1074 =? sum)%Z
  | _, _ => false
  end.

(** How far [x] is from the exact sum, in units of [2^-2148]. *)
Definition distanceFromExactSum (x : number) (items : list InvoiceItem) : option Z :=
  match units x, exactSumQuantityRate items with
  | Some u, Some sum => Some (Z.abs (u * 2 ^ 1074 - sum))
  | _, _ => None
  end.

(** [x] is exactly [subtotal * taxRate / 100] as real numbers:
    [100 * x = subtotal * taxRate]. *)
Definition isExactPercentage (x subtotal taxRate : number) : bool :=
  match units x, units subtotal, units taxRate with
  | Some u, Some s, Some t => (100 * u * 2 ^ 1074 =? s * t)%Z
  | _, _, _ => false
  end.


(** Every [ClickAddItem] of the run draws a [Date.now()] string that is not
    yet the id of a row. *)
Fixpoint freshIds (parseFloat : string -> number) (events : list Event) (s : State)
  : bool :=
  match events with
  | [] => true
  | e :: rest =>
      match e with
      | ClickAddItem now => negb (existsb (String.eqb now) (map id (items s)))
      | _ => true
      end
      && freshIds parseFloat rest (step parseFloat s e)
  end.

(** The document was handed over: the download link was clicked, or the
    print dialog was invoked. *)
Definition delivered (p : Proc unit) : Prop :=
  (exists href download, In (ClickLink href download) (fst p)) \/ In WindowPrint (fst p).

(** ** Classes of binary64 values

    The values of [float] are read through [Prim2SF], the kernel's
    specification of binary64 ([SpecFloat]). *)

(** Zero of either sign, a positive finite number, or plus infinity. *)
Definition SFnonneg (x : spec_float) : bool :=
  match x with
  | S754_zero _ | S754_finite false _ _ | S754_infinity false => true
  | _ => false
  end.

Definition SFfinite (x : spec_float) : bool :=
  match x with
  | S754_zero _ | S754_finite _ _ _ => true
  | _ => false
  end.

(** The possible results of [binary_round_aux] on a non-negative mantissa. *)
Inductive rounded (s : bool) : spec_float -> Prop :=
| rounded_zero : rounded s (S754_zero s)
| rounded_finite m e : rounded s (S754_finite s m e)
| rounded_infinity : rounded s (S754_infinity s).

(** The number 100. *)
Definition hundred : spec_float := S754_finite false 7036874417766400 (-46).

(** [SFnonneg], or not a number. *)
Definition SFnonneg_or_nan (x : spec_float) : bool :=
  match x with
  | S754_nan => true
  | _ => SFnonneg x
  end.

(** ** Two-digit display *)

(** [n] hundredths are nearest to the magnitude of the finite value [x]:
    [n / 100] and [|x|] are at most [1 / 200] apart. For [x = m * 2^(-k)]
    the inequality is multiplied by [200 * 2^k]. *)
Definition nearest_hundredths (x : spec_float) (n : Z) : Prop :=
  match x with
  | S754_zero _ => n = 0%Z
  | S754_finite _ m (Zneg k) =>
      (2 * Z.abs (n * 2 ^ Z.pos k - 100 * Z.pos m) <= 2 ^ Z.pos k)%Z
  | S754_finite _ m e => (n = 100 * Z.pos m * 2 ^ e)%Z
  | _ => False
  end.

(** [text] shows [x] rounded to two fractional digits: it is a run of
    digits, a point and two digits, and the digits read as one decimal
    numeral are the number of hundredths nearest to [x]. *)
Definition shows_two_decimals (text : string) (x : number) : Prop :=
  exists (a b : string) (d : Decimal.uint),
    text = (a ++ "." ++ b)%string
    /\ a <> "" /\ String.length b = 2%nat
    /\ NilEmpty.uint_of_string (a ++ b) = Some d
    /\ nearest_hundredths (Prim2SF x) (Z.of_N (N.of_uint d)).

(** ** Classes of events and states *)

(** The events that edit a text: the description of a row, or the title,
    client, dates or notes of the invoice. *)
Definition editsText (e : Event) : bool :=
  match e with
  | ChangeDescription _ _ | ChangeTitle _ | ChangeClient _
  | ChangeIssueDate _ | ChangeDueDate _ | ChangeNotes _ => true
  | _ => false
  end.

(** No number the user types into is [NaN]: the tax rate, and the quantity
    and rate of every row. *)
Definition inputsAreNumbers (s : State) : Prop :=
  is_nan (taxRate (invoiceData s)) = false
  /\ Forall (fun item => is_nan (quantity item) = false /\ is_nan (rate item) = false)
            (items s).

(** [term] occurs in [field] when letter case is ignored. *)
Definition occursIn (term field : string) : Prop :=
  exists before after,
    Str.toLowerCase field = (before ++ Str.toLowerCase term ++ after)%string.

(** ** Sample data *)

Definition sampleEvents : list Event :=
  [ChangeDescription "1" "Design";
   ChangeQuantity "1" "2";
   ChangeRate "1" "50";
   ClickAddItem "1700000000000";
   ChangeDescription "1700000000000" "Hosting";
   ChangeRate "1700000000000" "100";
   ChangeTaxRate "10"].

Definition sampleInvoice : Invoice.t :=
  Invoice.mk "7" "INV-1700000000000" "Web" sent "2024-01-05" "2024-02-05"
             200 10 20 220 None "c1".

Definition sampleClient : Client.t :=
  Client.mk "Ada" "ada@example.com" (Some "Analytical Engines") None None.

Definition sampleProfile : Profile.t :=
  Profile.mk "Grace" None None (Some "555-0100") "grace@example.com".

(** A host whose PDF generation fails; it prints whole numbers without a
    fraction and dates as they are stored. *)
Definition sampleHost (opens : bool) (content : option string) : Host :=
  mkHost (fun x => ES.toFixed (fun _ => "?") x 0) (fun d => d)
         (fun _ => inl "render failed") (fun b => b)
         opens content.

(** A new invoice with three rows of quantity 1 at the given rates, typed
    into the form. *)
Definition threeRows (rate1 rate2 rate3 : string) : State :=
  run ES.parseFloat
      [ChangeRate "1" rate1;
       ClickAddItem "1700000000001"; ChangeRate "1700000000001" rate2;
       ClickAddItem "1700000000002"; ChangeRate "1700000000002" rate3]
      (NewInvoice_initial "2024-01-05").

(** A new invoice with one row of 250.50 at a tax rate of 15 percent. *)
Definition fifteenPercent : State :=
  run ES.parseFloat [ChangeRate "1" "250.50"; ChangeTaxRate "15"]
      (NewInvoice_initial "2024-01-05").

(** A backend that stores invoices and answers the insert of rows with an
    error or not. *)
Definition sampleBackend (rowsFail : bool) : Backend :=
  mkBackend (fun _ => inr "inv-1")
            (fun _ => if rowsFail then Some "insert failed" else None)
            (fun _ _ => None)
            (fun _ => None).

(** The form of a new invoice, filled in. *)
Definition sampleForm : State :=
  run ES.parseFloat (ChangeClient "c1" :: ChangeTitle "Web" :: sampleEvents)
      (NewInvoice_initial "2024-01-05").

(** The editor opened on a stored invoice with two rows. *)
Definition sampleEditor : State :=
  InvoiceEditor_initial sampleInvoice
    [mkItem "r1" "Design" 2 50 100; mkItem "r2" "Hosting" 1 100 100].

(** * Theorems *)

(** ** Binary64 arithmetic *)

Module Binary64.

Local Open Scope Z_scope.

(** *** Digit counts *)

Lemma digits2_pos_upper p : Z.pos p < 2 ^ Z.pos (digits2_pos p).
Proof.
  induction p as [ p IH | p IH | ]; simpl digits2_pos.
  - rewrite Pos2Z.inj_succ, Z.pow_succ_r by lia. lia.
  - rewrite Pos2Z.inj_succ, Z.pow_succ_r by lia. lia.
  - reflexivity.
Qed.

Lemma digits2_pos_lower p : 2 ^ (Z.pos (digits2_pos p) - 1) <= Z.pos p.
Proof.
  induction p as [ p IH | p IH | ]; simpl digits2_pos.
  - rewrite Pos2Z.inj_succ.
    replace (Z.succ (Z.pos (digits2_pos p)) - 1) with (Z.succ (Z.pos (digits2_pos p) - 1)) by lia.
    rewrite Z.pow_succ_r by lia. lia.
  - rewrite Pos2Z.inj_succ.
    replace (Z.succ (Z.pos (digits2_pos p)) - 1) with (Z.succ (Z.pos (digits2_pos p) - 1)) by lia.
    rewrite Z.pow_succ_r by lia. lia.
  - reflexivity.
Qed.

Lemma Zdigits2_nonneg m : 0 <= Zdigits2 m.
Proof. destruct m; simpl; lia. Qed.

(** A non-negative integer below [2^k] has at most [k] binary digits. *)
Lemma Zdigits2_le m k : 0 <= m < 2 ^ k -> 0 <= k -> Zdigits2 m <= k.
Proof.
  intros [H0 H] Hk. destruct m as [ | p | p ]; simpl; try lia.
  destruct (Z_le_gt_dec (Z.pos (digits2_pos p)) k) as [ | Hgt ]; trivial.
  pose proof (digits2_pos_lower p) as Hl.
  assert (2 ^ k <= 2 ^ (Z.pos (digits2_pos p) - 1)) by (apply Z.pow_le_mono_r; lia).
  lia.
Qed.

Lemma Zdigits2_upper m : 0 <= m -> m < 2 ^ Zdigits2 m.
Proof.
  destruct m as [ | p | p ]; simpl; intros; try lia. apply digits2_pos_upper.
Qed.

Lemma Zdigits2_mono m n : 0 <= m <= n -> Zdigits2 m <= Zdigits2 n.
Proof.
  intros H. apply Zdigits2_le; [ | apply Zdigits2_nonneg ].
  pose proof (Zdigits2_upper n). lia.
Qed.

Lemma Zdigits2_succ m : 0 <= m -> Zdigits2 (m + 1) <= Zdigits2 m + 1.
Proof.
  intros H. apply Zdigits2_le; [ | pose proof (Zdigits2_nonneg m); lia ].
  pose proof (Zdigits2_upper m H). rewrite Z.pow_add_r by (try apply Zdigits2_nonneg; lia).
  lia.
Qed.

(** *** Shifting and rounding *)

Lemma iter_pos_invariant {A} (f : A -> A) (P : A -> Prop) :
  (forall x, P x -> P (f x)) -> forall p x, P x -> P (iter_pos f p x).
Proof.
  intros Hf. induction p as [ p IH | p IH | ]; intros x Hx; simpl; auto.
Qed.

Lemma shr_1_bounds mrs : 0 <= shr_m mrs -> 0 <= shr_m (shr_1 mrs) <= shr_m mrs.
Proof.
  destruct mrs as [m r s]. simpl.
  destruct m as [ | [ p | p | ] | p ]; simpl; lia.
Qed.

Lemma shr_bounds mrs e n :
  0 <= shr_m mrs -> 0 <= shr_m (fst (shr mrs e n)) <= shr_m mrs.
Proof.
  intros H. unfold shr. destruct n as [ | p | p ]; simpl; try lia.
  apply (iter_pos_invariant shr_1 (fun r => 0 <= shr_m r <= shr_m mrs)); [ | lia ].
  intros x Hx. pose proof (shr_1_bounds x). lia.
Qed.

Lemma shr_record_of_loc_m m l : shr_m (shr_record_of_loc m l) = m.
Proof. destruct l as [ | [ | | ] ]; reflexivity. Qed.

Lemma shr_fexp_bounds m e l :
  0 <= m -> 0 <= shr_m (fst (shr_fexp prec emax m e l)) <= m.
Proof.
  intros H. unfold shr_fexp.
  pose proof (shr_bounds (shr_record_of_loc m l) e
                (fexp prec emax (Zdigits2 m + e) - e)) as Hb.
  rewrite shr_record_of_loc_m in Hb. auto.
Qed.

(** The exponent after [shr_fexp]: the given one, or the canonical one. *)
Lemma shr_fexp_exponent m e l :
  snd (shr_fexp prec emax m e l) = e
  \/ snd (shr_fexp prec emax m e l) = fexp prec emax (Zdigits2 m + e).
Proof.
  unfold shr_fexp, shr.
  destruct (fexp prec emax (Zdigits2 m + e) - e) as [ | p | p ] eqn:E; simpl; auto.
  right. lia.
Qed.

Lemma round_nearest_even_bounds m l : m <= round_nearest_even m l <= m + 1.
Proof.
  unfold round_nearest_even. destruct l as [ | [ | | ] ]; try lia.
  destruct (Z.even m); lia.
Qed.

Lemma binary_round_aux_rounded s m e l :
  0 <= m -> rounded s (binary_round_aux prec emax s m e l).
Proof.
  intros H. unfold binary_round_aux.
  destruct (shr_fexp prec emax m e l) as [mrs' e'] eqn:E1.
  pose proof (shr_fexp_bounds m e l H) as H1. rewrite E1 in H1. simpl in H1.
  pose proof (round_nearest_even_bounds (shr_m mrs') (loc_of_shr_record mrs')) as H2.
  set (m1 := round_nearest_even (shr_m mrs') (loc_of_shr_record mrs')) in *.
  destruct (shr_fexp prec emax m1 e' loc_Exact) as [mrs'' e''] eqn:E2.
  pose proof (shr_fexp_bounds m1 e' loc_Exact ltac:(lia)) as H3.
  rewrite E2 in H3. simpl in H3.
  destruct (shr_m mrs'') as [ | p | p ]; try constructor; try lia.
  destruct (e'' <=? emax - prec); constructor.
Qed.

(** No overflow: a mantissa of at most 55 digits at an exponent of at
    most 965 rounds to a finite number. *)
Lemma binary_round_aux_finite s m e l :
  0 <= m -> Zdigits2 m <= 55 -> e <= 965 ->
  match binary_round_aux prec emax s m e l with
  | S754_zero s' | S754_finite s' _ _ => s' = s
  | _ => False
  end.
Proof.
  intros H Hd He. unfold binary_round_aux.
  destruct (shr_fexp prec emax m e l) as [mrs' e'] eqn:E1.
  pose proof (shr_fexp_bounds m e l H) as H1. rewrite E1 in H1. simpl in H1.
  pose proof (shr_fexp_exponent m e l) as X1. rewrite E1 in X1. simpl in X1.
  pose proof (round_nearest_even_bounds (shr_m mrs') (loc_of_shr_record mrs')) as H2.
  set (m1 := round_nearest_even (shr_m mrs') (loc_of_shr_record mrs')) in *.
  destruct (shr_fexp prec emax m1 e' loc_Exact) as [mrs'' e''] eqn:E2.
  pose proof (shr_fexp_bounds m1 e' loc_Exact ltac:(lia)) as H3.
  rewrite E2 in H3. simpl in H3.
  pose proof (shr_fexp_exponent m1 e' loc_Exact) as X2. rewrite E2 in X2. simpl in X2.
  assert (Hm1 : Zdigits2 m1 <= 56).
  { pose proof (Zdigits2_mono m1 (shr_m mrs' + 1) ltac:(lia)).
    pose proof (Zdigits2_succ (shr_m mrs') ltac:(lia)).
    pose proof (Zdigits2_mono (shr_m mrs') m ltac:(lia)). lia. }
  assert (He' : e' <= 967).
  { destruct X1 as [-> | ->]; [ lia | ]. unfold fexp, SpecFloat.emin, prec, emax. lia. }
  assert (He'' : e'' <= 971).
  { destruct X2 as [-> | ->]; [ lia | ]. unfold fexp, SpecFloat.emin, prec, emax. lia. }
  destruct (shr_m mrs'') as [ | p | p ]; trivial; try lia.
  replace (e'' <=? emax - prec) with true; trivial.
  symmetry. apply Z.leb_le. unfold emax, prec. lia.
Qed.

(** *** Classes of values *)

Lemma rounded_nonneg x : rounded false x -> SFnonneg x = true.
Proof. now destruct 1. Qed.

Lemma SFmul_nonneg x y :
  SFnonneg x = true -> SFnonneg y = true -> SFfinite x = true -> SFfinite y = true ->
  SFnonneg (SF64mul x y) = true.
Proof.
  destruct x as [ sx | [ | ] | | [ | ] mx ex ]; try discriminate;
    destruct y as [ sy | [ | ] | | [ | ] my ey ]; try discriminate; intros _ _ _ _; trivial.
  apply rounded_nonneg. apply (binary_round_aux_rounded false). lia.
Qed.

(** The product of two non-negative numbers is non-negative, or it is
    [NaN] (infinity times zero). *)
Lemma SFmul_nonneg_or_nan x y :
  SFnonneg x = true -> SFnonneg y = true -> SFnonneg_or_nan (SF64mul x y) = true.
Proof.
  destruct x as [ sx | [ | ] | | [ | ] mx ex ]; try discriminate;
    destruct y as [ sy | [ | ] | | [ | ] my ey ]; try discriminate; intros _ _; trivial.
  assert (H : SFnonneg (SF64mul (S754_finite false mx ex) (S754_finite false my ey)) = true).
  { apply rounded_nonneg. apply (binary_round_aux_rounded false). lia. }
  revert H. unfold SFnonneg_or_nan.
  now destruct (SF64mul (S754_finite false mx ex) (S754_finite false my ey)).
Qed.

Lemma binary_normalize_pos_nonneg m e :
  0 < m -> SFnonneg (binary_normalize prec emax m e false) = true.
Proof.
  destruct m as [ | p | p ]; try lia. intros _. simpl. unfold binary_round.
  destruct (shl_align p e (fexp prec emax (Z.pos (digits2_pos p) + e))) as [mz ez].
  apply rounded_nonneg. apply binary_round_aux_rounded. lia.
Qed.

Lemma SFadd_nonneg x y :
  SFnonneg x = true -> SFnonneg y = true -> SFnonneg (SF64add x y) = true.
Proof.
  destruct x as [ [ | ] | [ | ] | | [ | ] mx ex ]; try discriminate;
    destruct y as [ [ | ] | [ | ] | | [ | ] my ey ]; try discriminate; intros _ _; trivial.
  unfold SF64add, SFadd, cond_Zopp. apply binary_normalize_pos_nonneg. lia.
Qed.

Lemma SFnonneg_or_nan_cases x :
  SFnonneg_or_nan x = true -> x = S754_nan \/ SFnonneg x = true.
Proof. destruct x; auto. Qed.

Lemma SFadd_nonneg_or_nan x y :
  SFnonneg_or_nan x = true -> SFnonneg_or_nan y = true ->
  SFnonneg_or_nan (SF64add x y) = true.
Proof.
  intros Hx Hy.
  destruct (SFnonneg_or_nan_cases x Hx) as [-> | Hx']; trivial.
  destruct (SFnonneg_or_nan_cases y Hy) as [-> | Hy']; [ now destruct x | ].
  pose proof (SFadd_nonneg x y Hx' Hy') as H. revert H.
  unfold SFnonneg_or_nan. now destruct (SF64add x y).
Qed.

(** *** Division by 100 *)

Lemma div_eucl_bounds a b :
  0 <= a -> 0 < b -> 0 <= fst (Z.div_eucl a b) /\ fst (Z.div_eucl a b) * b <= a.
Proof.
  intros Ha Hb. change (fst (Z.div_eucl a b)) with (a / b). split.
  - apply Z.div_pos; lia.
  - rewrite Z.mul_comm. apply Z.mul_div_le. lia.
Qed.

Lemma div_core_hundred mx ex :
  bounded prec emax mx ex = true ->
  let '(q, e, _) := SFdiv_core_binary prec emax (Z.pos mx) ex 7036874417766400 (-46) in
  0 <= q /\ Zdigits2 q <= 55 /\ e <= 965.
Proof.
  unfold bounded, canonical_mantissa. intros H. apply andb_true_iff in H.
  destruct H as [Hc He]. apply Z.eqb_eq in Hc. apply Z.leb_le in He.
  unfold SFdiv_core_binary.
  change (Zdigits2 7036874417766400) with 53.
  change (Zdigits2 (Z.pos mx)) with (Z.pos (digits2_pos mx)).
  pose proof (digits2_pos_upper mx) as Hup.
  set (d := Z.pos (digits2_pos mx)) in *.
  assert (Hd : 0 < d) by (unfold d; lia).
  unfold fexp, SpecFloat.emin, prec, emax in *.
  set (e0 := Z.min (Z.max (d + ex - (53 + -46) - 53) (3 - 1024 - 53)) (ex - -46)).
  set (s := ex - -46 - e0).
  assert (Hs : 0 <= s <= Z.max (106 - d) 0) by (unfold s, e0; lia).
  set (m' := match s with Z.pos _ => Z.shiftl (Z.pos mx) s | 0 => Z.pos mx | Z.neg _ => 0 end).
  assert (Hm' : 0 <= m' < 2 ^ (d + s)).
  { unfold m'. destruct s as [ | p | p ] eqn:Es.
    - rewrite Z.add_0_r. lia.
    - rewrite Z.shiftl_mul_pow2 by lia. rewrite Z.pow_add_r by lia.
      assert (0 < 2 ^ Z.pos p) by (apply Z.pow_pos_nonneg; lia). nia.
    - lia. }
  destruct (Z.div_eucl m' 7036874417766400) as [q r] eqn:Eq.
  pose proof (div_eucl_bounds m' 7036874417766400 ltac:(lia) ltac:(lia)) as [Hq0 Hq].
  rewrite Eq in Hq0, Hq. simpl in Hq0, Hq.
  split; [ exact Hq0 | split; [ | unfold e0; lia ] ].
  assert (Hlt : q * 2 ^ 52 < 2 ^ (d + s)).
  { change (2 ^ 52) with 4503599627370496. lia. }
  destruct (Z_lt_le_dec (d + s) 52) as [Hsmall | Hbig].
  - assert (2 ^ (d + s) <= 2 ^ 52) by (apply Z.pow_le_mono_r; lia).
    assert (q = 0) by nia. subst q. simpl. lia.
  - assert (Zdigits2 q <= d + s - 52); [ | lia ].
    apply Zdigits2_le; [ | lia ]. split; trivial.
    replace (d + s) with (d + s - 52 + 52) in Hlt by lia.
    rewrite Z.pow_add_r in Hlt by lia.
    assert (0 < 2 ^ 52) by (apply Z.pow_pos_nonneg; lia). nia.
Qed.

(** The hundredth of a finite number is finite, with the same sign. *)
Lemma SFdiv_hundred x :
  valid_binary x = true -> SFfinite x = true ->
  SFfinite (SF64div x hundred) = true
  /\ (SFnonneg x = true -> SFnonneg (SF64div x hundred) = true).
Proof.
  destruct x as [ sx | sx | | sx mx ex ]; try discriminate; intros Hv _.
  - split; trivial.
  - unfold SF64div, SFdiv, hundred. simpl in Hv.
    pose proof (div_core_hundred mx ex Hv) as Hc.
    destruct (SFdiv_core_binary prec emax (Z.pos mx) ex 7036874417766400 (-46))
      as [[q e] l].
    destruct Hc as (Hq & Hd & He).
    pose proof (binary_round_aux_finite (xorb sx false) q e l Hq Hd He) as Hr.
    destruct (binary_round_aux prec emax (xorb sx false) q e l) as [ s' | | | s' m' e' ];
      try contradiction; subst s'; (split; [ reflexivity | ]); now destruct sx.
Qed.

(** *** Primitive floats *)

Lemma Prim2SF_hundred : Prim2SF 100 = hundred.
Proof. reflexivity. Qed.

Lemma leb_zero x : (0 <=? x)%float = SFnonneg (Prim2SF x).
Proof.
  rewrite leb_spec. change (Prim2SF 0) with (S754_zero false).
  now destruct (Prim2SF x) as [ [ | ] | [ | ] | | [ | ] m e ].
Qed.

Lemma is_finite_spec x : is_finite x = SFfinite (Prim2SF x).
Proof.
  unfold is_finite, is_nan, is_infinity. rewrite !eqb_spec, abs_spec.
  change (Prim2SF infinity) with (S754_infinity false).
  destruct (Prim2SF x) as [ [ | ] | [ | ] | | [ | ] m e ]; trivial;
    unfold SFeqb, SFcompare, SFabs;
    now rewrite Z.compare_refl, Pos.compare_cont_refl.
Qed.

(** A number between 0 and 100 is finite. *)
Lemma percentage_finite x :
  (0 <=? x)%float = true -> (x <=? 100)%float = true -> is_finite x = true.
Proof.
  rewrite leb_zero, leb_spec, is_finite_spec, Prim2SF_hundred.
  now destruct (Prim2SF x) as [ [ | ] | [ | ] | | [ | ] m e ].
Qed.

Lemma mul_nonneg x y :
  is_finite x = true -> is_finite y = true ->
  (0 <=? x)%float = true -> (0 <=? y)%float = true -> (0 <=? x * y)%float = true.
Proof.
  rewrite !is_finite_spec, !leb_zero, mul_spec. intros. now apply SFmul_nonneg.
Qed.

Lemma add_nonneg x y :
  (0 <=? x)%float = true -> (0 <=? y)%float = true -> (0 <=? x + y)%float = true.
Proof. rewrite !leb_zero, add_spec. apply SFadd_nonneg. Qed.

Lemma nonneg_or_nan_spec x :
  ((0 <=? x)%float || is_nan x)%bool = SFnonneg_or_nan (Prim2SF x).
Proof.
  rewrite leb_zero. unfold is_nan. rewrite eqb_spec.
  destruct (Prim2SF x) as [ [ | ] | [ | ] | | [ | ] m e ]; trivial;
    unfold SFeqb, SFcompare, SFnonneg_or_nan, SFnonneg;
    now rewrite Z.compare_refl, Pos.compare_cont_refl.
Qed.

Lemma mul_nonneg_or_nan x y :
  (0 <=? x)%float = true -> (0 <=? y)%float = true ->
  ((0 <=? x * y)%float || is_nan (x * y)%float)%bool = true.
Proof.
  rewrite nonneg_or_nan_spec, !leb_zero, mul_spec. apply SFmul_nonneg_or_nan.
Qed.

Lemma add_nonneg_or_nan x y :
  ((0 <=? x)%float || is_nan x)%bool = true ->
  ((0 <=? y)%float || is_nan y)%bool = true ->
  ((0 <=? x + y)%float || is_nan (x + y)%float)%bool = true.
Proof.
  rewrite !nonneg_or_nan_spec, add_spec. apply SFadd_nonneg_or_nan.
Qed.

(** A finite number that is non-negative or [NaN] is non-negative. *)
Lemma finite_nonneg x :
  is_finite x = true -> ((0 <=? x)%float || is_nan x)%bool = true ->
  (0 <=? x)%float = true.
Proof.
  rewrite nonneg_or_nan_spec, is_finite_spec, leb_zero.
  now destruct (Prim2SF x) as [ [ | ] | [ | ] | | [ | ] m e ].
Qed.

Lemma div_hundred_finite x :
  is_finite x = true ->
  is_finite (x / 100)%float = true
  /\ ((0 <=? x)%float = true -> (0 <=? x / 100)%float = true).
Proof.
  rewrite !is_finite_spec, !leb_zero, div_spec, Prim2SF_hundred.
  apply SFdiv_hundred. apply Prim2SF_valid.
Qed.

(** Zero times a finite number is a zero, and adding a zero to [+0] gives
    [+0]. *)
Lemma zero_mul_finite y :
  is_finite y = true -> exists s, Prim2SF (0 * y)%float = S754_zero s.
Proof.
  rewrite is_finite_spec, mul_spec. change (Prim2SF 0) with (S754_zero false).
  destruct (Prim2SF y) as [ s | s | | s m e ]; try discriminate; intros _; simpl; eauto.
Qed.

Lemma zero_add_zero y s : Prim2SF y = S754_zero s -> (0 + y)%float = 0%float.
Proof.
  intros H. apply Prim2SF_inj. rewrite add_spec, H.
  change (Prim2SF 0) with (S754_zero false). now destruct s.
Qed.

Lemma zero_eqb y s : Prim2SF y = S754_zero s -> (y =? 0)%float = true.
Proof.
  intros H. rewrite eqb_spec, H. reflexivity.
Qed.

End Binary64.

(** ** Examples *)

(** The example of the specification: items (2, 50.00) and (1, 100.00) at a
    tax rate of 10. *)
Example calculateTotals_example :
  calculateTotals [mkItem "a" "" 2 50 (2 * 50); mkItem "b" "" 1 100 (1 * 100)] 10
  = mkTotals 200 20 220.
Proof. reflexivity. Qed.

(** The same totals, reached by typing into a new invoice. *)
Example sampleEvents_totals :
  let s := run ES.parseFloat sampleEvents (NewInvoice_initial "2024-01-05") in
  eval callCalculateTotals s = mkTotals 200 20 220.
Proof. vm_compute. reflexivity. Qed.

(** ** Line items *)

Lemma step_items parseFloat s e :
  items (step parseFloat s e) =
  match e with
  | ClickAddItem now => addItem (items s) now
  | ClickRemoveItem id' => removeItem (items s) id'
  | ChangeDescription id' value => updateItem (items s) id' (SetDescription value)
  | ChangeQuantity id' value =>
      updateItem (items s) id' (SetQuantity (parsed parseFloat value))
  | ChangeRate id' value => updateItem (items s) id' (SetRate (parsed parseFloat value))
  | _ => items s
  end.
Proof. destruct e; reflexivity. Qed.

Lemma newItem_derived now : derived (newItem now).
Proof. reflexivity. Qed.

Lemma updateOne_cases id' u item :
  updateOne id' u item = item
  \/ (String.eqb (id item) id' = true /\ quantity_or_rate u = false
      /\ updateOne id' u item = assign item u)
  \/ (String.eqb (id item) id' = true /\ quantity_or_rate u = true
      /\ derived (updateOne id' u item)
      /\ id (updateOne id' u item) = id item).
Proof.
  unfold updateOne.
  destruct (String.eqb (id item) id') eqn:Hid; [ | now left ].
  destruct (quantity_or_rate u) eqn:Hu.
  - right; right. repeat split. destruct u; try discriminate; reflexivity.
  - right; left. auto.
Qed.

Lemma updateOne_derived id' u item :
  (forall v, u <> SetAmount v) -> derived item -> derived (updateOne id' u item).
Proof.
  intros Hu Hd.
  destruct (updateOne_cases id' u item) as [-> | [(_ & Hq & ->) | (_ & _ & H & _)]];
    trivial.
  destruct u; try discriminate Hq; try exact Hd.
  now elim (Hu value).
Qed.

Lemma step_derived parseFloat s e :
  Forall derived (items s) -> Forall derived (items (step parseFloat s e)).
Proof.
  intros H. rewrite step_items.
  destruct e; trivial.
  - unfold addItem. apply Forall_app. split; trivial.
    constructor; [ apply newItem_derived | constructor ].
  - unfold removeItem. destruct (1 <? _)%nat; trivial.
    rewrite Forall_forall in *. intros x Hx. apply filter_In in Hx. now apply H.
  - unfold updateItem. rewrite Forall_map. eapply Forall_impl; [ | exact H ].
    intros a. apply updateOne_derived. discriminate.
  - unfold updateItem. rewrite Forall_map. eapply Forall_impl; [ | exact H ].
    intros a. apply updateOne_derived. discriminate.
  - unfold updateItem. rewrite Forall_map. eapply Forall_impl; [ | exact H ].
    intros a. apply updateOne_derived. discriminate.
Qed.

Lemma run_derived parseFloat events s :
  Forall derived (items s) -> Forall derived (items (run parseFloat events s)).
Proof.
  revert s. induction events as [ | e events IH ]; intros s H; simpl; trivial.
  apply IH. now apply step_derived.
Qed.

Lemma fold_amount_derived items acc :
  Forall derived items ->
  fold_left (fun sum item => sum + amount item) items acc
  = fold_left (fun sum item => sum + quantity item * rate item) items acc.
Proof.
  intros H. revert acc.
  induction H as [ | item items Hd _ IH ]; intros acc; simpl; trivial.
  rewrite Hd. apply IH.
Qed.

(** C1, as stated, fails: the subtotal is accumulated in binary64 and is
    not the exact sum. Three rows of quantity 1 at the rates 0.1, 0.2 and
    0.3, typed into a new invoice, give the subtotal 0.6000000000000001,
    which is not the exact sum of the three products and not even the
    binary64 number nearest to it (0.6 is nearer); the same rows in the
    opposite order have the same exact sum and the subtotal 0.6. *)
Lemma subtotal_is_not_the_exact_sum :
  let rows := items (threeRows "0.1" "0.2" "0.3") in
  let rows' := items (threeRows "0.3" "0.2" "0.1") in
  map (fun item => (quantity item, rate item, amount item)) rows
  = [(1, 0.1, 0.1); (1, 0.2, 0.2); (1, 0.3, 0.3)]
  /\ subtotal (calculateTotals rows 0) = 0.6000000000000001
  /\ isExactSum (subtotal (calculateTotals rows 0)) rows = false
  /\ (exists d d',
        distanceFromExactSum 0.6 rows = Some d
        /\ distanceFromExactSum (subtotal (calculateTotals rows 0)) rows = Some d'
        /\ (d < d')%Z)
  /\ exactSumQuantityRate rows' = exactSumQuantityRate rows
  /\ subtotal (calculateTotals rows' 0) = 0.6
  /\ subtotal (calculateTotals rows' 0) <> subtotal (calculateTotals rows 0).
Proof.
  cbv zeta.
  split; [ vm_compute; reflexivity | ].
  split; [ vm_compute; reflexivity | ].
  split; [ vm_compute; reflexivity | ].
  split.
  { eexists. eexists.
    split; [ vm_compute; reflexivity | ].
    split; [ vm_compute; reflexivity | ].
    vm_compute. reflexivity. }
  split; [ vm_compute; reflexivity | ].
  split; [ vm_compute; reflexivity | ].
  intros H. apply (f_equal (fun x => Leibniz.eqb x 0.6)) in H.
  vm_compute in H. discriminate H.
Qed.

(** C1, as amended. For every list of line items maintained by the editor
    operations (the row of a new invoice, or stored rows whose amounts are
    their quantity times rate, after any sequence of user actions), the
    subtotal of [calculateTotals] is the binary64 sum, accumulated from 0
    in the order of the list, of the binary64 products [quantity * rate]:
    every product and every addition is rounded to the nearest binary64
    number. *)
Theorem subtotal_is_sum_of_quantity_times_rate
    (parseFloat : string -> number) (initial : State) (events : list Event) :
  Forall derived (items initial) ->
  subtotal (calculateTotals (items (run parseFloat events initial))
                            (taxRate (invoiceData (run parseFloat events initial))))
  = fold_left (fun sum item => sum + quantity item * rate item)
              (items (run parseFloat events initial)) 0.
Proof.
  intros H. unfold calculateTotals; simpl.
  apply fold_amount_derived. now apply run_derived.
Qed.

Lemma subtotal_is_sum_of_quantity_times_rate_witness :
  Forall derived (items (NewInvoice_initial "2024-01-05"))
  /\ subtotal (calculateTotals
                 (items (run ES.parseFloat sampleEvents (NewInvoice_initial "2024-01-05")))
                 (taxRate (invoiceData
                    (run ES.parseFloat sampleEvents (NewInvoice_initial "2024-01-05")))))
     = fold_left (fun sum item => sum + quantity item * rate item)
         (items (run ES.parseFloat sampleEvents (NewInvoice_initial "2024-01-05"))) 0.
Proof.
  assert (H : Forall derived (items (NewInvoice_initial "2024-01-05"))).
  { repeat constructor. }
  split; [ exact H | ].
  exact (subtotal_is_sum_of_quantity_times_rate ES.parseFloat _ sampleEvents H).
Defined.

(** C2, as stated, fails: the code divides the rate by 100 before it
    multiplies. One row of 250.50 at 15 percent, typed into a new invoice:
    the tax amount is 37.574999999999996, shown as $37.57, and the total
    is shown as $288.07. It is neither the binary64 value of
    [subtotal * tax_rate / 100], which is 37.575000000000003 and would be
    shown as $37.58, nor the real number 37.575. *)
Lemma tax_amount_divides_the_rate_first :
  let t := eval callCalculateTotals fifteenPercent in
  (subtotal t, taxRate (invoiceData fifteenPercent)) = (250.5, 15)
  /\ taxAmount t = 37.574999999999996
  /\ subtotal t * taxRate (invoiceData fifteenPercent) / 100 = 37.575000000000003
  /\ taxAmount t <> subtotal t * taxRate (invoiceData fifteenPercent) / 100
  /\ isExactPercentage (taxAmount t) (subtotal t) (taxRate (invoiceData fifteenPercent))
     = false
  /\ InvoiceSummary (fun _ => "?") t = ("$250.50", "$37.57", "$288.07")
  /\ money (fun _ => "?") (subtotal t * taxRate (invoiceData fifteenPercent) / 100)
     = "$37.58".
Proof.
  cbv zeta.
  split; [ vm_compute; reflexivity | ].
  split; [ vm_compute; reflexivity | ].
  split; [ vm_compute; reflexivity | ].
  split.
  { intros H. apply (f_equal (fun x => Leibniz.eqb x 37.574999999999996)) in H.
    vm_compute in H. discriminate H. }
  repeat split; vm_compute; reflexivity.
Qed.

(** C2, as amended. For every list of line items and every tax rate (in
    particular every rate between 0 and 100), [calculateTotals] returns as
    subtotal the binary64 sum of the amounts, accumulated from 0 in the
    order of the list, as tax amount the subtotal times the hundredth of
    the tax rate (the rate is divided by 100 first, and the quotient and
    the product are each rounded to binary64), and as total the subtotal
    plus the tax amount; the closure of the components applies it to the
    rows and the tax rate of the form. *)
Theorem tax_amount_and_total (rows : list InvoiceItem) (percent : number) :
  subtotal (calculateTotals rows percent)
  = fold_left (fun sum item => sum + amount item) rows 0
  /\ taxAmount (calculateTotals rows percent)
     = subtotal (calculateTotals rows percent) * (percent / 100)
  /\ total (calculateTotals rows percent)
     = subtotal (calculateTotals rows percent) + taxAmount (calculateTotals rows percent)
  /\ forall s, items s = rows -> taxRate (invoiceData s) = percent ->
               eval callCalculateTotals s = calculateTotals rows percent.
Proof.
  repeat split. intros s <- <-. reflexivity.
Qed.

(** In binary64 the product with the hundredth of the rate is not always
    the hundredth of the product: a subtotal of 3 at 10 percent. *)
Example tax_amount_rounding :
  taxAmount (calculateTotals [mkItem "a" "" 3 1 3] 10) = 0.30000000000000004
  /\ 3 * 10 / 100 = 0.3.
Proof. split; reflexivity. Qed.

Lemma updateItem_quantity items id' v item' :
  In item' (updateItem items id' (SetQuantity v)) -> id item' = id' ->
  quantity item' = v /\ derived item'.
Proof.
  unfold updateItem. intros Hin Hid. apply in_map_iff in Hin.
  destruct Hin as (item & <- & _). unfold updateOne in *.
  destruct (String.eqb (id item) id') eqn:E; simpl in *.
  - split; reflexivity.
  - apply String.eqb_neq in E. contradiction.
Qed.

Lemma updateItem_rate items id' v item' :
  In item' (updateItem items id' (SetRate v)) -> id item' = id' ->
  rate item' = v /\ derived item'.
Proof.
  unfold updateItem. intros Hin Hid. apply in_map_iff in Hin.
  destruct Hin as (item & <- & _). unfold updateOne in *.
  destruct (String.eqb (id item) id') eqn:E; simpl in *.
  - split; reflexivity.
  - apply String.eqb_neq in E. contradiction.
Qed.





(** The function [updateItem] itself accepts the field ['amount']; no
    handler of the form passes it. *)
Example updateItem_amount_field :
  updateItem [mkItem "1" "" 2 50 100] "1" (SetAmount 7) = [mkItem "1" "" 2 50 7].
Proof. reflexivity. Qed.

(** ** Purity of the totals *)

(** C9. [calculateTotals] is pure and idempotent: a call leaves the
    component state as it was, its result is a function of the item list
    and the tax rate alone, and a second call returns what the first did. *)
Theorem calculateTotals_pure (s : State) :
  exec callCalculateTotals s = s
  /\ eval callCalculateTotals s = calculateTotals (items s) (taxRate (invoiceData s))
  /\ eval (_ <- callCalculateTotals ;; callCalculateTotals) s = eval callCalculateTotals s
  /\ exec (_ <- callCalculateTotals ;; callCalculateTotals) s = s
  /\ (forall s' : State,
        items s' = items s -> taxRate (invoiceData s') = taxRate (invoiceData s) ->
        eval callCalculateTotals s' = eval callCalculateTotals s).
Proof.
  destruct s as [d its]. repeat split.
  intros [d' its'] Hi Ht. simpl in *. unfold eval, callCalculateTotals, bind, ret; simpl.
  now rewrite Hi, Ht.
Qed.

Lemma calculateTotals_pure_witness :
  eval callCalculateTotals
       (mkState (mkInvoiceData "Other title" "c2" "" "" "note" 10)
                [mkItem "a" "" 2 50 100])
  = eval callCalculateTotals
       (mkState (mkInvoiceData "" "" "" "" "" 10) [mkItem "a" "" 2 50 100]).
Proof.
  exact (proj2 (proj2 (proj2 (proj2
           (calculateTotals_pure
              (mkState (mkInvoiceData "" "" "" "" "" 10) [mkItem "a" "" 2 50 100])))))
           (mkState (mkInvoiceData "Other title" "c2" "" "" "note" 10)
                    [mkItem "a" "" 2 50 100])
           eq_refl eq_refl).
Defined.

(** ** Non-emptiness of the item list *)

Lemma addItem_length items now : List.length (addItem items now) = S (List.length items).
Proof. unfold addItem. rewrite length_app. simpl. lia. Qed.

Lemma updateItem_length items id' u :
  List.length (updateItem items id' u) = List.length items.
Proof. apply length_map. Qed.

(** [removeItem] does nothing when at most one row remains. *)
Lemma removeItem_last items id' :
  (List.length items <= 1)%nat -> removeItem items id' = items.
Proof.
  intros H. unfold removeItem.
  destruct (1 <? List.length items)%nat eqn:E; trivial.
  apply Nat.ltb_lt in E. lia.
Qed.

Lemma filter_id_length items id' :
  NoDup (map id items) ->
  (List.length items
   <= S (List.length (filter (fun item => negb (String.eqb (id item) id')) items)))%nat.
Proof.
  induction items as [ | item items IH ]; simpl; intros H; [ lia | ].
  inversion H as [ | ? ? Hnotin Hnd ]; subst.
  destruct (String.eqb (id item) id') eqn:E; simpl.
  - apply String.eqb_eq in E.
    assert (Hall : filter (fun item0 => negb (String.eqb (id item0) id')) items = items).
    { apply forallb_filter_id. apply forallb_forall. intros x Hx.
      apply negb_true_iff. apply String.eqb_neq. intros Hxe.
      apply Hnotin. rewrite E, <- Hxe. now apply in_map. }
    rewrite Hall. lia.
  - specialize (IH Hnd). lia.
Qed.

Lemma updateItem_ids items id' u :
  (forall v, u <> SetId v) -> map id (updateItem items id' u) = map id items.
Proof.
  intros Hu. unfold updateItem. rewrite map_map. apply map_ext. intros item.
  unfold updateOne. destruct (String.eqb (id item) id'); trivial.
  destruct u; simpl; trivial. now elim (Hu value).
Qed.

Lemma filter_ids_NoDup (f : InvoiceItem -> bool) items :
  NoDup (map id items) -> NoDup (map id (filter f items)).
Proof.
  induction items as [ | item items IH ]; simpl; intros H; trivial.
  inversion H as [ | ? ? Hnotin Hnd ]; subst.
  destruct (f item); simpl; auto.
  constructor; auto.
  intros Hin. apply Hnotin. apply in_map_iff in Hin. destruct Hin as (x & Hx & Hin).
  apply filter_In in Hin. rewrite <- Hx. apply in_map. tauto.
Qed.

(** One user action on a non-empty list with pairwise distinct ids, the id
    of an added row being new. *)
Lemma step_nonempty parseFloat s e :
  items s <> [] -> NoDup (map id (items s)) ->
  freshIds parseFloat [e] s = true ->
  items (step parseFloat s e) <> [] /\ NoDup (map id (items (step parseFloat s e))).
Proof.
  intros Hne Hnd Hfresh. rewrite step_items.
  destruct e; auto.
  - simpl in Hfresh. rewrite andb_true_r in Hfresh. apply negb_true_iff in Hfresh.
    unfold addItem. split; [ now destruct (items s) | ].
    rewrite map_app. simpl.
    apply NoDup_app; [ exact Hnd | repeat constructor; intros [] | ].
    intros x Hx [Heq | []]. subst x.
    assert (Hex : existsb (String.eqb now) (map id (items s)) = true).
    { apply existsb_exists. exists now. split; trivial. apply String.eqb_refl. }
    congruence.
  - unfold removeItem. destruct (1 <? List.length (items s))%nat eqn:E; auto.
    apply Nat.ltb_lt in E. split; [ | now apply filter_ids_NoDup ].
    pose proof (filter_id_length (items s) id' Hnd) as Hlen.
    intros Hnil. rewrite Hnil in Hlen. simpl in Hlen. lia.
  - split.
    + intros Hnil. apply Hne. apply length_zero_iff_nil.
      rewrite <- (updateItem_length (items s) id' (SetDescription value)).
      now rewrite Hnil.
    + rewrite updateItem_ids; [ trivial | discriminate ].
  - split.
    + intros Hnil. apply Hne. apply length_zero_iff_nil.
      rewrite <- (updateItem_length (items s) id' (SetQuantity (parsed parseFloat value))).
      now rewrite Hnil.
    + rewrite updateItem_ids; [ trivial | discriminate ].
  - split.
    + intros Hnil. apply Hne. apply length_zero_iff_nil.
      rewrite <- (updateItem_length (items s) id' (SetRate (parsed parseFloat value))).
      now rewrite Hnil.
    + rewrite updateItem_ids; [ trivial | discriminate ].
Qed.

Lemma run_nonempty parseFloat events initial :
  items initial <> [] ->
  NoDup (map id (items initial)) ->
  freshIds parseFloat events initial = true ->
  items (run parseFloat events initial) <> []
  /\ NoDup (map id (items (run parseFloat events initial))).
Proof.
  revert initial. induction events as [ | e events IH ]; intros s Hne Hnd Hfresh.
  - simpl. auto.
  - simpl in Hfresh. apply andb_true_iff in Hfresh. destruct Hfresh as [He Hrest].
    assert (H1 : freshIds parseFloat [e] s = true).
    { simpl. now rewrite He. }
    destruct (step_nonempty parseFloat s e Hne Hnd H1) as [Hne' Hnd'].
    simpl. now apply IH.
Qed.

(** C10, as amended. The list of a new invoice starts with one row, that of
    [InvoiceEditor] with the stored rows of the invoice; [removeItem] does
    nothing when at most one row remains, [addItem] adds a row and
    [updateItem] keeps them all. Hence a list that is not empty and whose
    ids are pairwise distinct stays so under every sequence of user actions
    in which each added row gets a new id. *)
Theorem items_stay_nonempty :
  (forall today, List.length (items (NewInvoice_initial today)) = 1%nat)
  /\ (forall invoice initialItems,
        items (InvoiceEditor_initial invoice initialItems) = initialItems)
  /\ (forall items id',
        (List.length items <= 1)%nat -> removeItem items id' = items)
  /\ (forall items now, List.length (addItem items now) = S (List.length items))
  /\ (forall items id' u, List.length (updateItem items id' u) = List.length items)
  /\ (forall (parseFloat : string -> number) (events : list Event) (initial : State),
        items initial <> [] ->
        NoDup (map id (items initial)) ->
        freshIds parseFloat events initial = true ->
        items (run parseFloat events initial) <> []
        /\ NoDup (map id (items (run parseFloat events initial)))).
Proof.
  repeat split.
  - apply removeItem_last.
  - apply addItem_length.
  - apply updateItem_length.
  - now apply run_nonempty.
  - now apply run_nonempty.
Qed.

Lemma items_stay_nonempty_witness :
  items (run ES.parseFloat
             (sampleEvents ++ [ClickRemoveItem "1"; ClickRemoveItem "1700000000000"])
             (NewInvoice_initial "2024-01-05")) <> []
  /\ NoDup (map id (items (run ES.parseFloat
             (sampleEvents ++ [ClickRemoveItem "1"; ClickRemoveItem "1700000000000"])
             (NewInvoice_initial "2024-01-05")))).
Proof.
  apply (proj2 (proj2 (proj2 (proj2 (proj2 items_stay_nonempty)))) ES.parseFloat).
  - discriminate.
  - repeat constructor; simpl; tauto.
  - vm_compute. reflexivity.
Defined.

(** C10, as stated, fails. The list of [InvoiceEditor] is the stored one,
    which may hold no row, and no action but [addItem] changes that. And
    in a new invoice two rows added within the same millisecond share
    their id, so that one click removes both: the run below ends with no
    row. *)
Lemma item_list_may_be_empty :
  items (InvoiceEditor_initial sampleInvoice []) = []
  /\ items (run ES.parseFloat [ClickRemoveItem "1"; ChangeQuantity "1" "2"]
                (InvoiceEditor_initial sampleInvoice [])) = []
  /\ items (run ES.parseFloat
                [ClickAddItem "1700000000000"; ClickAddItem "1700000000000";
                 ClickRemoveItem "1"; ClickRemoveItem "1700000000000"]
                (NewInvoice_initial "2024-01-05")) = [].
Proof. repeat split; reflexivity. Qed.

(** ** Numeric input *)

(** The model of [parseFloat] fails on a text that, after leading white
    space, is empty or starts with a character that begins no numeric
    literal. *)
Lemma parseFloat_non_numeric (s : string) :
  match ES.trimStart s with
  | String c _ =>
      ES.isDigit c = false /\ c <> "."%char /\ c <> "+"%char /\ c <> "-"%char
      /\ c <> "I"%char
  | EmptyString => True
  end ->
  is_nan (ES.parseFloat s) = true.
Proof.
  unfold ES.parseFloat. destruct (ES.trimStart s) as [ | c r ]; [ reflexivity | ].
  intros (Hd & Hdot & Hplus & Hminus & HI).
  assert (Hu : ES.unsignedLiteral (String c r) = None).
  { unfold ES.unsignedLiteral.
    assert (Hp : prefix "Infinity" (String c r) = false).
    { cbn [prefix]. destruct (ascii_dec "I" c) as [E | E]; [ now elim HI | reflexivity ]. }
    rewrite Hp. simpl. rewrite Hd.
    destruct (Ascii.ascii_dec c ".") as [E | E]; [ contradiction | ].
    destruct c as [[|] [|] [|] [|] [|] [|] [|] [|]]; try reflexivity; now elim E. }
  destruct (Ascii.ascii_dec c "-") as [E | E]; [ contradiction | ].
  destruct (Ascii.ascii_dec c "+") as [E' | E']; [ contradiction | ].
  destruct c as [[|] [|] [|] [|] [|] [|] [|] [|]];
    try (rewrite Hu; reflexivity); contradiction.
Qed.

Lemma parsed_nan parseFloat value :
  is_nan (parseFloat value) = true -> parsed parseFloat value = 0.
Proof. intros H. unfold parsed, or, truthy. now rewrite H. Qed.

(** C7. When the numeric parse of the text typed into a quantity, rate or
    tax-rate field fails ([parseFloat] yields [NaN]), the value stored is
    zero: in the quantity, respectively the rate, of every row the handler
    updates, and in the tax rate. The handlers are total: no error arises. *)
Theorem unparsable_input_stores_zero
    (parseFloat : string -> number) (s : State) (id' value : string) :
  is_nan (parseFloat value) = true ->
  parsed parseFloat value = 0
  /\ Forall (fun item => id item = id' -> quantity item = 0)
            (items (step parseFloat s (ChangeQuantity id' value)))
  /\ Forall (fun item => id item = id' -> rate item = 0)
            (items (step parseFloat s (ChangeRate id' value)))
  /\ taxRate (invoiceData (step parseFloat s (ChangeTaxRate value))) = 0.
Proof.
  intros H. pose proof (parsed_nan parseFloat value H) as Hp.
  split; [ exact Hp | ]. rewrite !step_items. rewrite Hp.
  repeat split.
  - apply Forall_forall. intros item Hin Hid.
    now apply (updateItem_quantity (items s) id' 0 item).
  - apply Forall_forall. intros item Hin Hid.
    now apply (updateItem_rate (items s) id' 0 item).
  - unfold step, exec, handle, bind, getInvoiceData, setInvoiceData. simpl. exact Hp.
Qed.

Lemma unparsable_input_stores_zero_witness :
  is_nan (ES.parseFloat "abc") = true
  /\ items (step ES.parseFloat (NewInvoice_initial "2024-01-05") (ChangeQuantity "1" "abc"))
     = [mkItem "1" "" 0 0 (0 * 0)]
  /\ taxRate (invoiceData (step ES.parseFloat (NewInvoice_initial "2024-01-05")
                                (ChangeTaxRate "abc"))) = 0.
Proof.
  assert (H : is_nan (ES.parseFloat "abc") = true) by (vm_compute; reflexivity).
  split; [ exact H | split ].
  - vm_compute. reflexivity.
  - exact (proj2 (proj2 (proj2
      (unparsable_input_stores_zero ES.parseFloat (NewInvoice_initial "2024-01-05")
                                    "1" "abc" H)))).
Defined.

(** ** The PDF document in its two paper sizes *)

Lemma tableRow_text host format item :
  textContent host (tableRow host (createStyles format) item)
  = [description item;
     numberToString host (quantity item);
     ("$" ++ ES.toFixed (numberToString host) (rate item) 2)%string;
     ("$" ++ ES.toFixed (numberToString host) (amount item) 2)%string].
Proof.
  reflexivity.
Qed.

Lemma rows_text host items :
  flat_map (textContent host) (map (tableRow host (createStyles A4)) items)
  = flat_map (textContent host) (map (tableRow host (createStyles A5)) items).
Proof.
  induction items as [ | item items IH ]; trivial.
  cbn [map flat_map]. now rewrite IH, !tableRow_text.
Qed.

Lemma rows_blank host items :
  map blankLayout (map (tableRow host (createStyles A4)) items)
  = map blankLayout (map (tableRow host (createStyles A5)) items).
Proof.
  rewrite !map_map. apply map_ext. intros item. reflexivity.
Qed.

Lemma and_then_text host v style style' (content : string -> list Value) :
  textContent host (and_then v (fun s => Text style (content s)))
  = textContent host (and_then v (fun s => Text style' (content s))).
Proof.
  unfold and_then. destruct v as [ s | ]; trivial. now destruct (truthy_str (Some s)).
Qed.

Lemma and_then_blank v (f g : string -> Node) :
  (forall s, blankLayout (f s) = blankLayout (g s)) ->
  blankLayout (and_then v f) = blankLayout (and_then v g).
Proof.
  intros H. unfold and_then. destruct v as [ s | ]; trivial.
  destruct (truthy_str (Some s)); auto.
Qed.

(** C6. For every invoice, client, profile and list of line items, the
    documents rendered for A4 and for A5 show the same texts in the same
    order (identities, dates, descriptions, amounts, notes), and they are
    the same element tree once the page size and the layout metrics (font
    sizes, widths, paddings and margins) are blanked out. *)
Theorem paper_sizes_differ_in_layout_only
    (host : Host) (invoice : Invoice.t) (client : Client.t) (profile : Profile.t)
    (items : list InvoiceItem) :
  textContent host (InvoicePDF host invoice client profile items A4)
  = textContent host (InvoicePDF host invoice client profile items A5)
  /\ blankLayout (InvoicePDF host invoice client profile items A4)
     = blankLayout (InvoicePDF host invoice client profile items A5).
Proof.
  split.
  - unfold InvoicePDF. cbn [textContent flat_map app].
    rewrite rows_text.
    rewrite (and_then_text host (Profile.company_address profile) _
               (Single (Styles.companyDetails (createStyles A5))) (fun s => [Str s])).
    rewrite (and_then_text host (Profile.phone profile) _
               (Single (Styles.companyDetails (createStyles A5))) (fun s => [Str s])).
    rewrite (and_then_text host (Client.company client) _
               (Single (Styles.billToDetails (createStyles A5))) (fun s => [Str s])).
    rewrite (and_then_text host (Client.address client) _
               (Single (Styles.billToDetails (createStyles A5))) (fun s => [Str s])).
    rewrite (and_then_text host (Client.phone client) _
               (Single (Styles.billToDetails (createStyles A5))) (fun s => [Str s])).
    unfold and_then.
    destruct (Invoice.notes invoice) as [ n | ]; trivial.
    now destruct (truthy_str (Some n)).
  - unfold InvoicePDF. cbn [blankLayout map]. rewrite rows_blank.
    repeat first [ reflexivity | apply and_then_blank; intros | f_equal ].
Qed.

(** The sample invoice on both paper sizes. *)
Example sample_texts :
  textContent (sampleHost true None)
    (InvoicePDF (sampleHost true None) sampleInvoice sampleClient sampleProfile
                [mkItem "1" "Design" 2 50 100] A5)
  = ["Grace"; "555-0100"; "grace@example.com"; "INVOICE"; "#INV-1700000000000"; "SENT";
     "Bill To"; "Ada"; "Analytical Engines"; "ada@example.com";
     "Issue Date:"; "2024-01-05"; "Due Date:"; "2024-02-05";
     "Description"; "Qty"; "Rate"; "Amount";
     "Design"; "2"; "$50.00"; "$100.00";
     "Subtotal:"; "$200.00"; "Tax (10%):"; "$20.00"; "Total:"; "$220.00"].
Proof. vm_compute. reflexivity. Qed.

(** The two style sheets do differ: the page padding, for one. *)
Example page_padding :
  Styles.page (createStyles A4) <> Styles.page (createStyles A5).
Proof. intros H. vm_compute in H. discriminate H. Qed.

(** ** Rendering failures *)

(** C5, as stated, fails for printing: with the pop-up window blocked,
    [printInvoice] prints nothing and completes normally. *)
Lemma printInvoice_blocked_is_silent :
  ~ delivered (printInvoice (sampleHost false (Some "<p>invoice</p>")) A4)
  /\ snd (printInvoice (sampleHost false (Some "<p>invoice</p>")) A4) = inr tt.
Proof.
  split; [ | reflexivity ].
  intros [(h & d & [H | []]) | [H | []]]; discriminate H.
Qed.

(** C5, as amended. A failure of the PDF generation makes
    [downloadInvoicePDF] complete abruptly with the same error (the promise
    it returns is rejected) before any download is triggered; when the
    generation succeeds the link is clicked and the call completes
    normally. [printInvoice], when the print window cannot be opened or the
    element [invoice-content] is missing, completes normally without
    printing; otherwise it prints and completes normally. *)
Theorem rendering_failure_reporting
    (host : Host) (invoice : Invoice.t) (client : Client.t) (profile : Profile.t)
    (items : list InvoiceItem) (format : Format) :
  (forall e, generateInvoicePDF host invoice client profile items format = inl e ->
             downloadInvoicePDF host invoice client profile items format = ([], inl e))
  /\ (forall blob, generateInvoicePDF host invoice client profile items format = inr blob ->
             delivered (downloadInvoicePDF host invoice client profile items format)
             /\ snd (downloadInvoicePDF host invoice client profile items format) = inr tt)
  /\ (windowOpens host = false \/ invoiceContent host = None ->
             printInvoice host format = ([OpenWindow], inr tt))
  /\ (windowOpens host = true -> invoiceContent host <> None ->
             delivered (printInvoice host format)
             /\ snd (printInvoice host format) = inr tt).
Proof.
  unfold downloadInvoicePDF, printInvoice, delivered.
  repeat split.
  - intros e ->. reflexivity.
  - rewrite H. left. simpl. eauto.
  - rewrite H. reflexivity.
  - intros [-> | H]; trivial. destruct (windowOpens host); trivial. now rewrite H.
  - rewrite H. destruct (invoiceContent host); [ | contradiction ]. right. simpl. tauto.
  - rewrite H. destruct (invoiceContent host); [ | contradiction ]. reflexivity.
Qed.

Lemma rendering_failure_reporting_witness :
  downloadInvoicePDF (sampleHost true None) sampleInvoice sampleClient sampleProfile
                     [mkItem "1" "Design" 2 50 100] A4
  = ([], inl "render failed")
  /\ printInvoice (sampleHost true None) A4 = ([OpenWindow], inr tt).
Proof.
  split.
  - exact (proj1 (rendering_failure_reporting (sampleHost true None) sampleInvoice
                    sampleClient sampleProfile [mkItem "1" "Design" 2 50 100] A4)
                 "render failed" eq_refl).
  - exact (proj1 (proj2 (proj2 (rendering_failure_reporting (sampleHost true None)
                    sampleInvoice sampleClient sampleProfile
                    [mkItem "1" "Design" 2 50 100] A4)))
                 (or_intror eq_refl)).
Defined.

(** ** Totals of the empty list *)

(** C8. For the empty list of line items and every tax rate that is a
    finite number (a percentage: in particular every rate between 0 and
    100), [calculateTotals] returns a subtotal of 0, a tax amount equal to
    0 (a zero of either sign) and a total of 0; it is a total function and
    has no error condition. *)
Theorem empty_list_totals (taxRate : number) :
  is_finite taxRate = true ->
  subtotal (calculateTotals [] taxRate) = 0
  /\ (taxAmount (calculateTotals [] taxRate) =? 0) = true
  /\ total (calculateTotals [] taxRate) = 0.
Proof.
  intros H. unfold calculateTotals; simpl.
  destruct (Binary64.div_hundred_finite taxRate H) as [Hf _].
  destruct (Binary64.zero_mul_finite (taxRate / 100) Hf) as [s Hs].
  repeat split.
  - now apply (Binary64.zero_eqb _ s).
  - now apply (Binary64.zero_add_zero _ s).
Qed.

(** The second example of the specification: no items at a tax rate of
    20. *)
Lemma empty_list_totals_witness :
  is_finite 20 = true
  /\ subtotal (calculateTotals [] 20) = 0
  /\ (taxAmount (calculateTotals [] 20) =? 0) = true
  /\ total (calculateTotals [] 20) = 0.
Proof.
  split; [ reflexivity | ].
  exact (empty_list_totals 20 eq_refl).
Defined.

(** ** Sign of the totals *)

Lemma fold_amount_nonneg_or_nan items acc :
  Forall (fun item => (0 <=? amount item) || is_nan (amount item) = true) items ->
  (0 <=? acc) || is_nan acc = true ->
  (0 <=? fold_left (fun sum item => sum + amount item) items acc)
  || is_nan (fold_left (fun sum item => sum + amount item) items acc) = true.
Proof.
  intros H. revert acc.
  induction H as [ | item items Hi _ IH ]; intros acc Hacc; simpl; trivial.
  apply IH. now apply Binary64.add_nonneg_or_nan.
Qed.

Lemma totals_nonneg items taxRate :
  Forall derived items ->
  Forall (fun item => (0 <=? quantity item) = true /\ (0 <=? rate item) = true) items ->
  (0 <=? taxRate) = true -> (taxRate <=? 100) = true ->
  is_finite (subtotal (calculateTotals items taxRate)) = true ->
  (0 <=? subtotal (calculateTotals items taxRate)) = true
  /\ (0 <=? taxAmount (calculateTotals items taxRate)) = true
  /\ (0 <=? total (calculateTotals items taxRate)) = true.
Proof.
  intros Hd Hqr Ht0 Ht100 Hfin. unfold calculateTotals in *; simpl in *.
  assert (Hsub : (0 <=? fold_left (fun sum item => sum + amount item) items 0) = true).
  { apply Binary64.finite_nonneg; trivial.
    apply fold_amount_nonneg_or_nan; [ | reflexivity ].
    rewrite Forall_forall in *. intros item Hin.
    destruct (Hqr item Hin). rewrite (Hd item Hin).
    now apply Binary64.mul_nonneg_or_nan. }
  pose proof (Binary64.percentage_finite taxRate Ht0 Ht100) as Htf.
  destruct (Binary64.div_hundred_finite taxRate Htf) as [Hrf Hrn].
  assert (Htax : (0 <=? fold_left (fun sum item => sum + amount item) items 0
                          * (taxRate / 100)) = true).
  { apply Binary64.mul_nonneg; auto. }
  repeat split; trivial.
  now apply Binary64.add_nonneg.
Qed.

(** ** Display with two fractional digits *)

Lemma length_append (a b : string) :
  String.length (a ++ b) = (String.length a + String.length b)%nat.
Proof. induction a as [ | c a IH ]; simpl; auto. Qed.

Lemma length_substring (s : string) (n m : nat) :
  (n + m <= String.length s)%nat -> String.length (substring n m s) = m.
Proof.
  revert n m. induction s as [ | c s IH ]; intros n m H; simpl in *.
  - destruct n, m; simpl; trivial; lia.
  - destruct n as [ | n ].
    + destruct m as [ | m ]; simpl; trivial. f_equal. apply (IH 0%nat). lia.
    + apply IH. lia.
Qed.

Lemma substring_whole (s : string) : substring 0 (String.length s) s = s.
Proof. induction s as [ | c s IH ]; simpl; trivial. now rewrite IH. Qed.

Lemma substring_split (s : string) (n : nat) :
  (n <= String.length s)%nat ->
  (substring 0 n s ++ substring n (String.length s - n) s)%string = s.
Proof.
  revert n. induction s as [ | c s IH ]; intros n H; simpl in *.
  - now destruct n.
  - destruct n as [ | n ]; simpl.
    + now rewrite substring_whole.
    + f_equal. apply IH. lia.
Qed.

Lemma length_zeros k : String.length (ES.zeros k) = k.
Proof. induction k; simpl; auto. Qed.

Lemma zeros_string_of_uint k d :
  (ES.zeros k ++ NilEmpty.string_of_uint d)%string
  = NilEmpty.string_of_uint (Nat.iter k Decimal.D0 d).
Proof. induction k as [ | k IH ]; simpl; trivial. now rewrite IH. Qed.

Lemma of_uint_zeros k d : N.of_uint (Nat.iter k Decimal.D0 d) = N.of_uint d.
Proof. induction k as [ | k IH ]; simpl; trivial. Qed.

Lemma decimal_nonempty n : (1 <= String.length (ES.decimal n))%nat.
Proof.
  unfold ES.decimal. destruct (Z.to_N n) as [ | p ]; simpl; [ lia | ].
  pose proof (DecimalPos.Unsigned.to_uint_nonnil p) as H.
  destruct (Pos.to_uint p); simpl; try lia. contradiction.
Qed.

(** The digits of [fixed_digits n 2]. *)
Lemma fixed_digits_two n :
  (0 <= n)%Z ->
  exists (a b : string) (d : Decimal.uint),
    ES.fixed_digits n 2 = (a ++ "." ++ b)%string
    /\ a <> "" /\ String.length b = 2%nat
    /\ NilEmpty.uint_of_string (a ++ b) = Some d
    /\ Z.of_N (N.of_uint d) = n.
Proof.
  intros Hn. unfold ES.fixed_digits.
  set (m := ES.decimal n).
  set (padded := (ES.zeros (3 - String.length m) ++ m)%string).
  assert (Hlen : (3 <= String.length padded)%nat).
  { unfold padded. rewrite length_append, length_zeros.
    pose proof (decimal_nonempty n). fold m in H. lia. }
  set (k := String.length padded) in *.
  exists (substring 0 (k - 2) padded), (substring (k - 2) 2 padded),
         (Nat.iter (3 - String.length m) Decimal.D0 (N.to_uint (Z.to_N n))).
  assert (Hb : String.length (substring (k - 2) 2 padded) = 2%nat).
  { apply length_substring. fold k. lia. }
  assert (Ha : String.length (substring 0 (k - 2) padded) = (k - 2)%nat).
  { apply length_substring. fold k. lia. }
  repeat split; trivial.
  - intros E. rewrite E in Ha. simpl in Ha. lia.
  - pose proof (substring_split padded (k - 2)) as Hs. fold k in Hs.
    replace (k - (k - 2))%nat with 2%nat in Hs by lia.
    rewrite Hs by lia.
    unfold padded, m, ES.decimal. rewrite zeros_string_of_uint. apply NilEmpty.usu.
  - rewrite of_uint_zeros, DecimalN.Unsigned.of_to. lia.
Qed.

Lemma nearest_correct s m e :
  nearest_hundredths (S754_finite s m e) (ES.nearest m e 2).
Proof.
  unfold nearest_hundredths, ES.nearest.
  change (10 ^ Z.of_nat 2)%Z with 100%Z.
  destruct e as [ | p | k ]; try lia.
  set (D := (2 ^ Z.pos k)%Z).
  assert (HD : (0 < D)%Z) by (apply Z.pow_pos_nonneg; lia).
  replace (2 ^ (Z.pos k + 1))%Z with (2 * D)%Z
    by (unfold D; rewrite Z.pow_add_r by lia; lia).
  pose proof (Z.div_mod (2 * (Z.pos m * 100) + D) (2 * D) ltac:(lia)) as Hdm.
  pose proof (Z.mod_pos_bound (2 * (Z.pos m * 100) + D) (2 * D) ltac:(lia)) as Hb.
  lia.
Qed.

Lemma nearest_nonneg m e : (0 <= ES.nearest m e 2)%Z.
Proof.
  unfold ES.nearest. destruct e as [ | p | k ].
  - lia.
  - assert (0 < 2 ^ Z.pos p)%Z by (apply Z.pow_pos_nonneg; lia). nia.
  - apply Z.div_pos.
    + assert (0 < 2 ^ Z.pos k)%Z by (apply Z.pow_pos_nonneg; lia). lia.
    + apply Z.pow_pos_nonneg; lia.
Qed.

(** Below [10^21], as [toFixed] tests it. *)
Lemma below_1e21 x m e :
  Prim2SF x = S754_finite false m e -> (x <? 1e21) = true ->
  ES.at_least_1e21 m e = false.
Proof.
  intros Hx Hlt. pose proof (Prim2SF_valid x) as Hv. rewrite Hx in Hv.
  rewrite ltb_spec, Hx in Hlt.
  change (Prim2SF 1e21) with (S754_finite false 7629394531250000 17) in Hlt.
  unfold SFltb, SFcompare in Hlt.
  simpl in Hv. unfold bounded, canonical_mantissa in Hv.
  apply andb_true_iff in Hv. destruct Hv as [Hc _]. apply Z.eqb_eq in Hc.
  pose proof (Binary64.digits2_pos_upper m) as Hup.
  assert (Hd : (Z.pos (digits2_pos m) <= 53)%Z).
  { unfold fexp, SpecFloat.emin, prec, emax in Hc. lia. }
  assert (Hm : (Z.pos m < 2 ^ 53)%Z).
  { assert (2 ^ Z.pos (digits2_pos m) <= 2 ^ 53)%Z by (apply Z.pow_le_mono_r; lia). lia. }
  change (2 ^ 53)%Z with 9007199254740992%Z in Hm.
  unfold ES.at_least_1e21.
  destruct e as [ | p | k ].
  - apply Z.leb_gt. change (10 ^ 21)%Z with 1000000000000000000000%Z. lia.
  - apply Z.leb_gt. change (10 ^ 21)%Z with 1000000000000000000000%Z.
    destruct (Z.pos p ?= 17)%Z eqn:E; try discriminate.
    + apply Z.compare_eq in E. rewrite E.
      change (2 ^ 17)%Z with 131072%Z.
      destruct (Pos.compare_cont Eq m 7629394531250000) eqn:Em; try discriminate.
      assert (Hz : (Z.pos m < 7629394531250000)%Z) by exact Em.
      clear Em. lia.
    + apply (proj1 (Z.compare_lt_iff _ _)) in E.
      assert (2 ^ Z.pos p <= 2 ^ 16)%Z by (apply Z.pow_le_mono_r; lia).
      change (2 ^ 16)%Z with 65536%Z in H.
      assert (0 < 2 ^ Z.pos p)%Z by (apply Z.pow_pos_nonneg; lia). nia.
  - apply Z.leb_gt. change (10 ^ 21)%Z with 1000000000000000000000%Z.
    clear Hlt. assert (0 < 2 ^ Z.pos k)%Z by (apply Z.pow_pos_nonneg; lia). nia.
Qed.

(** A non-negative number below [10^21] is printed by [toFixed(2)] with two
    fractional digits, rounded to the nearest hundredth. *)
Lemma toFixed_shows_two_decimals (numberToString : number -> string) (x : number) :
  (0 <=? x) = true -> (x <? 1e21) = true ->
  shows_two_decimals (ES.toFixed numberToString x 2) x.
Proof.
  intros H0 Hlt. unfold ES.toFixed, shows_two_decimals.
  rewrite Binary64.leb_zero in H0.
  destruct (Prim2SF x) as [ s | [ | ] | | [ | ] m e ] eqn:Hx; try discriminate.
  - exists "0"%string, "00"%string, (Decimal.D0 (Decimal.D0 (Decimal.D0 Decimal.Nil))).
    repeat split; try reflexivity. discriminate.
  - rewrite ltb_spec, Hx in Hlt. discriminate.
  - rewrite (below_1e21 x m e Hx Hlt).
    destruct (fixed_digits_two (ES.nearest m e 2) (nearest_nonneg m e))
      as (a & b & d & Hf & Ha & Hb & Hd & Hn).
    exists a, b, d. cbv beta iota zeta. cbn [append]. rewrite Hn.
    repeat split; trivial. apply nearest_correct.
Qed.

(** ** Sign and display of the totals *)

(** C4, as stated, fails in two ways. [calculateTotals] adds the stored
    amounts, whatever the quantities and rates are: a stored row of
    quantity 1, rate 1 and amount -5 gives a subtotal of -5. And an amount
    can overflow: a quantity and a rate of 1e200, typed into a new
    invoice, are non-negative and the tax rate is 0, yet the amount is
    [Infinity] and the tax amount and the total are [NaN], which is not
    non-negative. *)
Lemma negative_or_overflowing_totals :
  eval callCalculateTotals
       (InvoiceEditor_initial sampleInvoice [mkItem "r1" "Refund" 1 1 (-5)])
  = mkTotals (-5) (-0.5) (-5.5)
  /\ (0 <=? -5) = false
  /\ Forall (fun item => derived item
                         /\ (0 <=? quantity item) = true /\ (0 <=? rate item) = true)
            (items (run ES.parseFloat [ChangeQuantity "1" "1e200"; ChangeRate "1" "1e200"]
                        (NewInvoice_initial "2024-01-05")))
  /\ taxRate (invoiceData
        (run ES.parseFloat [ChangeQuantity "1" "1e200"; ChangeRate "1" "1e200"]
             (NewInvoice_initial "2024-01-05"))) = 0
  /\ eval callCalculateTotals
          (run ES.parseFloat [ChangeQuantity "1" "1e200"; ChangeRate "1" "1e200"]
               (NewInvoice_initial "2024-01-05"))
     = mkTotals infinity nan nan
  /\ (0 <=? taxAmount (mkTotals infinity nan nan)) = false
  /\ (0 <=? total (mkTotals infinity nan nan)) = false.
Proof.
  repeat split; try (vm_compute; reflexivity).
  repeat constructor; vm_compute; reflexivity.
Qed.

(** C4, as amended. For every list of line items whose amounts are their
    quantity times rate, with quantities and rates >= 0, and every tax
    rate between 0 and 100: if the subtotal is finite (no amount and no
    partial sum overflowed), then subtotal, tax amount and total are >= 0.
    [calculateTotals] returns them unrounded; the summary panel prints each
    with [toFixed(2)], and every one of them below 10^21 is shown as
    digits, a point and two digits, the hundredths nearest to it. *)
Theorem totals_nonnegative_two_decimals
    (numberToString : number -> string) (items : list InvoiceItem) (taxRate : number) :
  Forall derived items ->
  Forall (fun item => (0 <=? quantity item) = true /\ (0 <=? rate item) = true) items ->
  (0 <=? taxRate) = true -> (taxRate <=? 100) = true ->
  is_finite (subtotal (calculateTotals items taxRate)) = true ->
  ((0 <=? subtotal (calculateTotals items taxRate)) = true
   /\ (0 <=? taxAmount (calculateTotals items taxRate)) = true
   /\ (0 <=? total (calculateTotals items taxRate)) = true)
  /\ InvoiceSummary numberToString (calculateTotals items taxRate)
     = (("$" ++ ES.toFixed numberToString (subtotal (calculateTotals items taxRate)) 2)%string,
        ("$" ++ ES.toFixed numberToString (taxAmount (calculateTotals items taxRate)) 2)%string,
        ("$" ++ ES.toFixed numberToString (total (calculateTotals items taxRate)) 2)%string)
  /\ (forall x,
        In x [subtotal (calculateTotals items taxRate);
              taxAmount (calculateTotals items taxRate);
              total (calculateTotals items taxRate)] ->
        (x <? 1e21) = true ->
        shows_two_decimals (ES.toFixed numberToString x 2) x).
Proof.
  intros Hd Hqr Ht0 Ht100 Hfin.
  pose proof (totals_nonneg items taxRate Hd Hqr Ht0 Ht100 Hfin) as (Hs & Hx & Ht).
  split; [ auto | split; [ reflexivity | ] ].
  intros x Hin Hlt. apply toFixed_shows_two_decimals; trivial.
  destruct Hin as [<- | [<- | [<- | []]]]; trivial.
Qed.

Lemma totals_nonnegative_two_decimals_witness :
  (Forall derived [mkItem "a" "" 2 50 (2 * 50); mkItem "b" "" 1 100 (1 * 100)]
   /\ (0 <=? 10) = true /\ (10 <=? 100) = true)
  /\ InvoiceSummary (fun _ => "?")
       (calculateTotals [mkItem "a" "" 2 50 (2 * 50); mkItem "b" "" 1 100 (1 * 100)] 10)
     = ("$200.00", "$20.00", "$220.00")
  /\ shows_two_decimals "220.00" 220.
Proof.
  assert (Hd : Forall derived
                 [mkItem "a" "" 2 50 (2 * 50); mkItem "b" "" 1 100 (1 * 100)]).
  { repeat constructor. }
  split; [ repeat split; trivial | ].
  destruct (totals_nonnegative_two_decimals (fun _ => "?")
              [mkItem "a" "" 2 50 (2 * 50); mkItem "b" "" 1 100 (1 * 100)] 10
              Hd ltac:(repeat constructor) eq_refl eq_refl eq_refl)
    as (_ & Hsum & Hshow).
  split.
  - rewrite Hsum. vm_compute. reflexivity.
  - exact (Hshow 220 (or_intror (or_intror (or_introl eq_refl))) eq_refl).
Defined.

(** * Further properties of the line-item editor *)

Lemma updateOne_other id' u item :
  id item <> id' -> updateOne id' u item = item.
Proof.
  intros H. unfold updateOne. apply String.eqb_neq in H. now rewrite H.
Qed.

Lemma filter_other_ids items id' :
  ~ In id' (map id items) ->
  filter (fun item => negb (String.eqb (id item) id')) items = items.
Proof.
  intros H. apply forallb_filter_id. apply forallb_forall. intros x Hx.
  apply negb_true_iff. apply String.eqb_neq. intros Hxe.
  apply H. rewrite <- Hxe. now apply in_map.
Qed.

(** X1. [removeItem] filters by id: once the list has more than one row,
    the rows left are exactly the rows with another id, so rows that share
    the id go together, and a list whose rows all have the id becomes
    empty. *)
Theorem removeItem_removes_every_row_with_the_id items id' :
  (1 < List.length items)%nat ->
  (forall item, In item (removeItem items id') <-> In item items /\ id item <> id')
  /\ ((forall item, In item items -> id item = id') -> removeItem items id' = []).
Proof.
  intros Hlen. unfold removeItem.
  apply Nat.ltb_lt in Hlen. rewrite Hlen. split.
  - intros item. rewrite filter_In, negb_true_iff, String.eqb_neq. tauto.
  - intros Hall. induction items as [ | item items IH ]; trivial.
    cbn [filter]. assert (E : id item = id') by (apply Hall; now left).
    apply String.eqb_eq in E. rewrite E. cbn [negb].
    clear Hlen IH E.
    induction items as [ | item' items IH ]; trivial.
    cbn [filter]. assert (E : id item' = id') by (apply Hall; right; now left).
    apply String.eqb_eq in E. rewrite E. cbn [negb].
    apply IH. intros x [ <- | Hx ]; apply Hall; [ now left | right; now right ].
Qed.

Lemma removeItem_removes_every_row_with_the_id_witness :
  removeItem [newItem "1700000000000"; newItem "1700000000000"] "1700000000000" = [].
Proof.
  apply (removeItem_removes_every_row_with_the_id
           [newItem "1700000000000"; newItem "1700000000000"] "1700000000000").
  - simpl. lia.
  - intros item [ <- | [ <- | [] ] ]; reflexivity.
Defined.

(** X2. An id that no row has: [updateItem] and [removeItem] leave the
    list as it is. *)
Theorem absent_id_changes_nothing items id' u :
  ~ In id' (map id items) ->
  updateItem items id' u = items /\ removeItem items id' = items.
Proof.
  intros H. split.
  - unfold updateItem. rewrite <- (map_id items) at 2. apply map_ext_in.
    intros item Hin. apply updateOne_other. intros E. apply H. rewrite <- E.
    now apply in_map.
  - unfold removeItem. destruct (1 <? List.length items)%nat; trivial.
    now apply filter_other_ids.
Qed.

Lemma absent_id_changes_nothing_witness :
  updateItem [newItem "1"; newItem "2"] "3" (SetQuantity 5) = [newItem "1"; newItem "2"]
  /\ removeItem [newItem "1"; newItem "2"] "3" = [newItem "1"; newItem "2"].
Proof.
  apply (absent_id_changes_nothing [newItem "1"; newItem "2"] "3" (SetQuantity 5)).
  simpl. intros [ H | [ H | [] ] ]; discriminate H.
Defined.

(** X3. Setting the quantity and setting the rate of a row commute: in
    either order the rows with the id end with the new quantity, the new
    rate and their product as amount, and the other rows are untouched. *)
Theorem quantity_and_rate_updates_commute items id' q r :
  updateItem (updateItem items id' (SetQuantity q)) id' (SetRate r)
  = updateItem (updateItem items id' (SetRate r)) id' (SetQuantity q)
  /\ updateItem (updateItem items id' (SetQuantity q)) id' (SetRate r)
     = map (fun item =>
              if String.eqb (id item) id'
              then mkItem (id item) (description item) q r (q * r)
              else item)
           items.
Proof.
  unfold updateItem. rewrite !map_map. split; apply map_ext; intros item;
    unfold updateOne; destruct (String.eqb (id item) id') eqn:E; cbn; rewrite E;
    reflexivity.
Qed.

(** X4. [updateItem] is idempotent: the same update a second time changes
    nothing more (also for the field [id], and whether or not the new id
    equals the old). *)
Theorem updateItem_idempotent items id' u :
  updateItem (updateItem items id' u) id' u = updateItem items id' u.
Proof.
  unfold updateItem. rewrite map_map. apply map_ext. intros item.
  unfold updateOne at 2 3. destruct (String.eqb (id item) id') eqn:E.
  - unfold updateOne.
    destruct u as [ v | v | v | v | v ]; cbn; rewrite ?E; try reflexivity.
    destruct (String.eqb v id'); reflexivity.
  - unfold updateOne. now rewrite E.
Qed.

(** X5. Removing the row just added gives back the list, provided the
    list was not empty and the new id was not in use. *)
Theorem removeItem_undoes_addItem items now :
  items <> [] -> ~ In now (map id items) ->
  removeItem (addItem items now) now = items.
Proof.
  intros Hne Hfresh. unfold removeItem, addItem.
  assert (Hlen : (1 <? List.length (items ++ [newItem now]))%nat = true).
  { apply Nat.ltb_lt. rewrite length_app. destruct items; [ now elim Hne | simpl; lia ]. }
  rewrite Hlen, filter_app, (filter_other_ids _ _ Hfresh).
  cbn. rewrite String.eqb_refl. cbn. apply app_nil_r.
Qed.

Lemma removeItem_undoes_addItem_witness :
  removeItem (addItem [mkItem "1" "Design" 2 50 100] "1700000000000") "1700000000000"
  = [mkItem "1" "Design" 2 50 100].
Proof.
  apply (removeItem_undoes_addItem [mkItem "1" "Design" 2 50 100] "1700000000000").
  - discriminate.
  - simpl. intros [ H | [] ]. discriminate H.
Defined.

(** * Adding an empty row *)

Module Binary64Sum.

Local Open Scope Z_scope.

(** Shifting out [p] bits of a mantissa of at least [p + j] bits leaves
    at least [j] bits. *)
Lemma shr_1_lower mrs j :
  0 <= j -> 2 ^ (1 + j) <= shr_m mrs -> 2 ^ j <= shr_m (shr_1 mrs).
Proof.
  intros Hj. rewrite Z.pow_add_r, Z.pow_1_r by lia.
  pose proof (Z.pow_pos_nonneg 2 j ltac:(lia) Hj) as Hp.
  remember (2 ^ j) as k eqn:Ek. clear Ek.
  destruct mrs as [m r s]. cbn [shr_m shr_1].
  destruct m as [ | [ p | p | ] | p ]; cbn [shr_m]; lia.
Qed.

Lemma iter_shr_1_lower p : forall mrs j,
  0 <= j -> 2 ^ (Z.pos p + j) <= shr_m mrs -> 2 ^ j <= shr_m (iter_pos shr_1 p mrs).
Proof.
  induction p as [ p IH | p IH | ]; intros mrs j Hj H; simpl.
  - apply IH; trivial. apply IH; [ lia | ]. apply shr_1_lower; [ lia | ].
    replace (1 + (Z.pos p + (Z.pos p + j))) with (Z.pos p~1 + j) by lia. exact H.
  - apply IH; trivial. apply IH; [ lia | ].
    replace (Z.pos p + (Z.pos p + j)) with (Z.pos p~0 + j) by lia. exact H.
  - now apply shr_1_lower.
Qed.

(** Above the least exponent, bringing a mantissa to its canonical
    exponent keeps it positive. *)
Lemma shr_fexp_positive m e l :
  0 < m -> SpecFloat.emin prec emax <= e ->
  0 < shr_m (fst (shr_fexp prec emax m e l))
  /\ SpecFloat.emin prec emax <= snd (shr_fexp prec emax m e l).
Proof.
  intros Hm He. unfold shr_fexp, shr.
  assert (Hf : fexp prec emax (Zdigits2 m + e) = Z.max (Zdigits2 m + e - 53) (-1074))
    by reflexivity.
  assert (He' : -1074 <= e) by exact He.
  destruct (fexp prec emax (Zdigits2 m + e) - e) as [ | p | p ] eqn:E; cbn [fst snd];
    rewrite ?Binary64.shr_record_of_loc_m; try (split; [ lia | exact He ]).
  assert (Hs : -1074 <= e + Z.pos p) by lia.
  split; [ | exact Hs ].
  rewrite Hf in E. clear Hf.
  destruct m as [ | mp | mp ]; try lia. cbn [Zdigits2] in E.
  assert (H : 2 ^ 0 <= shr_m (iter_pos shr_1 p (shr_record_of_loc (Z.pos mp) l))).
  { apply iter_shr_1_lower; [ lia | ]. rewrite Binary64.shr_record_of_loc_m.
    pose proof (Binary64.digits2_pos_lower mp) as Hl.
    eapply Z.le_trans; [ | exact Hl ].
    apply Z.pow_le_mono_r; lia. }
  change (2 ^ 0) with 1 in H. lia.
Qed.

Lemma binary_round_aux_nonzero s m e l s' :
  0 < m -> SpecFloat.emin prec emax <= e ->
  binary_round_aux prec emax s m e l <> S754_zero s'.
Proof.
  intros Hm He. unfold binary_round_aux.
  pose proof (shr_fexp_positive m e l Hm He) as [H1 H1e].
  destruct (shr_fexp prec emax m e l) as [mrs' e']. simpl in H1, H1e.
  pose proof (Binary64.round_nearest_even_bounds (shr_m mrs') (loc_of_shr_record mrs')) as Hr.
  pose proof (shr_fexp_positive
                (round_nearest_even (shr_m mrs') (loc_of_shr_record mrs')) e' loc_Exact
                ltac:(lia) H1e) as [H2 _].
  destruct (shr_fexp prec emax (round_nearest_even (shr_m mrs') (loc_of_shr_record mrs'))
              e' loc_Exact) as [mrs'' e''].
  simpl in H2. destruct (shr_m mrs'') as [ | p | p ]; try lia.
  destruct (e'' <=? emax - prec); discriminate.
Qed.

Lemma binary_round_nonzero s m e s' :
  SpecFloat.emin prec emax <= e -> binary_round prec emax s m e <> S754_zero s'.
Proof.
  intros He. unfold binary_round, shl_align.
  destruct (fexp prec emax (Z.pos (digits2_pos m) + e) - e) as [ | d | d ] eqn:E;
    apply binary_round_aux_nonzero; try lia.
  unfold fexp. lia.
Qed.

Lemma valid_exponent s m e :
  valid_binary (S754_finite s m e) = true -> SpecFloat.emin prec emax <= e.
Proof.
  simpl. unfold bounded, canonical_mantissa. intros H.
  apply andb_prop in H. destruct H as [H _]. apply Z.eqb_eq in H.
  unfold fexp in H. lia.
Qed.

(** A sum is the negative zero only if both terms are. *)
Lemma SFadd_negative_zero x y :
  valid_binary x = true -> valid_binary y = true ->
  SF64add x y = S754_zero true -> x = S754_zero true.
Proof.
  intros Hx Hy.
  destruct x as [ [ | ] | [ | ] | | sx mx ex ]; destruct y as [ [ | ] | [ | ] | | sy my ey ];
    try discriminate; trivial.
  unfold SF64add, SFadd, binary_normalize. intros H. exfalso. revert H.
  pose proof (valid_exponent _ _ _ Hx). pose proof (valid_exponent _ _ _ Hy).
  destruct (cond_Zopp sx (Z.pos (fst (shl_align mx ex (Z.min ex ey))))
            + cond_Zopp sy (Z.pos (fst (shl_align my ey (Z.min ex ey)))));
    [ discriminate | apply binary_round_nonzero; lia | apply binary_round_nonzero; lia ].
Qed.

Lemma add_negative_zero x y :
  Prim2SF (x + y)%float = S754_zero true -> Prim2SF x = S754_zero true.
Proof.
  rewrite add_spec. apply SFadd_negative_zero; apply Prim2SF_valid.
Qed.

(** Zero is neutral on the right for every value but the negative zero. *)
Lemma add_zero_r x : Prim2SF x <> S754_zero true -> (x + 0)%float = x.
Proof.
  intros H. apply Prim2SF_inj. rewrite add_spec.
  change (Prim2SF 0) with (S754_zero false).
  destruct (Prim2SF x) as [ [ | ] | [ | ] | | s m e ]; trivial. now elim H.
Qed.

End Binary64Sum.

(** A sum accumulated from a value that is not the negative zero is not
    the negative zero. *)
Lemma fold_amount_not_negative_zero items : forall acc,
  Prim2SF acc <> S754_zero true ->
  Prim2SF (fold_left (fun sum item => sum + amount item) items acc) <> S754_zero true.
Proof.
  induction items as [ | item items IH ]; intros acc H; simpl; trivial.
  apply IH. intros E. apply H. exact (Binary64Sum.add_negative_zero _ _ E).
Qed.

(** X6. A new row changes no total: [addItem] appends a row with amount 0,
    and the subtotal, accumulated from [+0], is never the negative zero,
    the only value that adding 0 would change. *)
Theorem addItem_keeps_totals items now taxRate :
  calculateTotals (addItem items now) taxRate = calculateTotals items taxRate.
Proof.
  unfold calculateTotals, addItem. rewrite fold_left_app. cbn [fold_left newItem amount].
  rewrite Binary64Sum.add_zero_r; trivial.
  apply fold_amount_not_negative_zero. discriminate.
Qed.

(** * Further properties of the form *)

Lemma fold_amount_ext (items items' : list InvoiceItem) : forall acc,
  map amount items = map amount items' ->
  fold_left (fun sum item => sum + amount item) items acc
  = fold_left (fun sum item => sum + amount item) items' acc.
Proof.
  revert items'. induction items as [ | item items IH ]; intros [ | item' items' ] acc H;
    try discriminate H; trivial.
  cbn [map] in H. injection H as Ha Hrest. cbn [fold_left]. rewrite Ha. now apply IH.
Qed.

Lemma updateItem_description_amounts items id' value :
  map amount (updateItem items id' (SetDescription value)) = map amount items.
Proof.
  unfold updateItem. rewrite map_map. apply map_ext. intros item.
  unfold updateOne. now destruct (String.eqb (id item) id').
Qed.

(** X7. Editing a text (the description of a row, or the title, client,
    dates or notes of the invoice) changes none of the totals. *)
Theorem text_edits_keep_totals parseFloat s e :
  editsText e = true ->
  eval callCalculateTotals (step parseFloat s e) = eval callCalculateTotals s.
Proof.
  intros He. destruct e; try discriminate He; try reflexivity.
  destruct s as [d items].
  change (calculateTotals (updateItem items id' (SetDescription value)) (taxRate d)
          = calculateTotals items (taxRate d)).
  unfold calculateTotals.
  now rewrite (fold_amount_ext _ items 0 (updateItem_description_amounts items id' value)).
Qed.

Lemma text_edits_keep_totals_witness :
  eval callCalculateTotals
       (step ES.parseFloat (run ES.parseFloat sampleEvents (NewInvoice_initial "2024-01-05"))
             (ChangeDescription "1" "Design and build"))
  = eval callCalculateTotals (run ES.parseFloat sampleEvents (NewInvoice_initial "2024-01-05")).
Proof.
  apply (text_edits_keep_totals ES.parseFloat
           (run ES.parseFloat sampleEvents (NewInvoice_initial "2024-01-05"))
           (ChangeDescription "1" "Design and build")).
  reflexivity.
Defined.

(** [parseFloat(value) || 0] is a number: [NaN] is falsy. *)
Lemma parsed_number parseFloat value : is_nan (parsed parseFloat value) = false.
Proof.
  unfold parsed, or, truthy.
  destruct (is_nan (parseFloat value)) eqn:E; cbn [orb negb]; [ reflexivity | ].
  destruct (is_zero (parseFloat value)); cbn [negb]; [ reflexivity | exact E ].
Qed.

Lemma step_inputsAreNumbers parseFloat s e :
  inputsAreNumbers s -> inputsAreNumbers (step parseFloat s e).
Proof.
  intros [Ht Hi]. unfold inputsAreNumbers. rewrite step_items.
  split.
  - destruct e; try exact Ht. apply parsed_number.
  - destruct e; try exact Hi.
    + unfold addItem. apply Forall_app. split; trivial.
      constructor; [ split; reflexivity | constructor ].
    + unfold removeItem. destruct (1 <? List.length (items s))%nat; trivial.
      rewrite Forall_forall in *. intros x Hx. apply Hi.
      apply filter_In in Hx. tauto.
    + unfold updateItem. rewrite Forall_map. revert Hi. apply Forall_impl.
      intros item H. unfold updateOne. now destruct (String.eqb (id item) id').
    + unfold updateItem. rewrite Forall_map. revert Hi. apply Forall_impl.
      intros item H. unfold updateOne. destruct (String.eqb (id item) id'); trivial.
      cbn. split; [ apply parsed_number | tauto ].
    + unfold updateItem. rewrite Forall_map. revert Hi. apply Forall_impl.
      intros item H. unfold updateOne. destruct (String.eqb (id item) id'); trivial.
      cbn. split; [ tauto | apply parsed_number ].
Qed.

(** X8. The form never stores [NaN] in an input: if the tax rate and the
    quantity and rate of every row are numbers, they are after every
    sequence of user actions, whatever is typed. (The amount of a row is
    not covered: infinity times zero is [NaN].) *)
Theorem inputs_stay_numbers parseFloat events s :
  inputsAreNumbers s -> inputsAreNumbers (run parseFloat events s).
Proof.
  revert s. induction events as [ | e events IH ]; intros s H; trivial.
  apply IH. now apply step_inputsAreNumbers.
Qed.

Lemma inputs_stay_numbers_witness :
  inputsAreNumbers
    (run ES.parseFloat [ChangeQuantity "1" "abc"; ChangeRate "1" "NaN"; ChangeTaxRate ""]
         (NewInvoice_initial "2024-01-05")).
Proof.
  apply (inputs_stay_numbers ES.parseFloat
           [ChangeQuantity "1" "abc"; ChangeRate "1" "NaN"; ChangeTaxRate ""]
           (NewInvoice_initial "2024-01-05")).
  split; [ reflexivity | ]. constructor; [ split; reflexivity | constructor ].
Defined.

(** * The invoice list *)

Lemma prefix_spec t : forall s,
  prefix t s = true <-> exists after, s = (t ++ after)%string.
Proof.
  induction t as [ | c t IH ]; intros s.
  - split; [ intros _; now exists s | intros _; now destruct s ].
  - destruct s as [ | c' s ]; cbn [prefix append].
    + split; [ discriminate | intros [after H]; discriminate H ].
    + destruct (ascii_dec c c') as [ <- | Hc ].
      * rewrite IH. split; intros [after H]; exists after; congruence.
      * split; [ discriminate | intros [after H]; congruence ].
Qed.

Lemma includes_spec t : forall s,
  Str.includes s t = true <-> exists before after, s = (before ++ t ++ after)%string.
Proof.
  intros s. split.
  - induction s as [ | c s IH ]; cbn [Str.includes]; rewrite orb_true_iff, prefix_spec.
    + intros [ [after H] | H ]; [ now exists "", after | discriminate H ].
    + intros [ [after H] | H ]; [ now exists "", after | ].
      destruct (IH H) as (before & after & ->). now exists (String c before), after.
  - intros (before & after & ->).
    induction before as [ | c before IH ].
    + cbn [append].
      assert (H : prefix t (t ++ after) = true) by (apply prefix_spec; now exists after).
      destruct (t ++ after)%string; cbn [Str.includes]; now rewrite H.
    + cbn [append Str.includes]. rewrite IH. apply orb_true_r.
Qed.

Lemma includes_empty s : Str.includes s "" = true.
Proof. apply includes_spec. now exists "", s. Qed.

(** X9. With the search box empty and the status filter on "all", the
    state the page starts in, every invoice is listed, in the given
    order. *)
Theorem filteredInvoices_initially_all invoices :
  filteredInvoices invoices "" "all" = invoices.
Proof.
  unfold filteredInvoices. apply forallb_filter_id. apply forallb_forall.
  intros invoice _. unfold matchesSearch, matchesStatus.
  cbn [Str.toLowerCase]. now rewrite includes_empty.
Qed.

(** X10. Which invoices the list shows: those in which the search term
    occurs in the number, the title or the client's name, letter case
    ignored, and whose status is the selected one unless the filter is
    "all". *)
Theorem filteredInvoices_lists invoices searchTerm statusFilter invoice :
  In invoice (filteredInvoices invoices searchTerm statusFilter)
  <-> In invoice invoices
      /\ (occursIn searchTerm (Invoice.invoice_number (Listed.invoice invoice))
          \/ occursIn searchTerm (Invoice.title (Listed.invoice invoice))
          \/ occursIn searchTerm (Listed.client_name invoice))
      /\ (statusFilter = "all"
          \/ statusName (Invoice.status (Listed.invoice invoice)) = statusFilter).
Proof.
  unfold filteredInvoices, matchesSearch, matchesStatus, occursIn.
  rewrite filter_In, andb_true_iff, !orb_true_iff, !includes_spec, !String.eqb_eq.
  tauto.
Qed.

Lemma lower_upper c : Str.lower (ES.upper c) = Str.lower c.
Proof.
  destruct c as [ [ | ] [ | ] [ | ] [ | ] [ | ] [ | ] [ | ] [ | ] ]; reflexivity.
Qed.

Lemma toLowerCase_toUpperCase s : Str.toLowerCase (ES.toUpperCase s) = Str.toLowerCase s.
Proof.
  induction s as [ | c s IH ]; trivial.
  cbn [ES.toUpperCase Str.toLowerCase]. now rewrite lower_upper, IH.
Qed.

(** X11. The search ignores the letter case of the term: the term typed
    in capital letters gives the same list. *)
Theorem search_ignores_case invoices searchTerm statusFilter :
  filteredInvoices invoices (ES.toUpperCase searchTerm) statusFilter
  = filteredInvoices invoices searchTerm statusFilter.
Proof.
  unfold filteredInvoices, matchesSearch. now rewrite toLowerCase_toUpperCase.
Qed.

(** * Saving *)

Lemma truthy_str_Some s : truthy_str (Some s) = true <-> s <> "".
Proof.
  cbn [truthy_str]. rewrite negb_true_iff. apply String.eqb_neq.
Qed.

(** The guard of [handleSave]. *)
Lemma handleSave_guard s :
  negb (truthy_str (Some (client_id (invoiceData s))))
  || negb (truthy_str (Some (title (invoiceData s)))) = false
  <-> client_id (invoiceData s) <> "" /\ title (invoiceData s) <> "".
Proof.
  rewrite orb_false_iff, !negb_false_iff, !truthy_str_Some. tauto.
Qed.

(** The four ways [handleSave] of [NewInvoice] can go. *)
Lemma handleSave_cases backend user_id now s status :
  let row := newInvoiceRow user_id now s status in
  let task := NewInvoice_handleSave backend user_id now s status in
  ((client_id (invoiceData s) = "" \/ title (invoiceData s) = "") /\ task = ([], inr tt))
  \/ (client_id (invoiceData s) <> "" /\ title (invoiceData s) <> ""
      /\ ((exists e, insertInvoice backend row = inl e
             /\ task = ([SetLoading true; InsertInvoice row;
                         ConsoleError "Error creating invoice:" e; SetLoading false],
                        inr tt))
          \/ (exists invoice_id e,
                insertInvoice backend row = inr invoice_id
                /\ insertItems backend (itemRows invoice_id (items s)) = Some e
                /\ task = ([SetLoading true; InsertInvoice row;
                            InsertItems (itemRows invoice_id (items s));
                            ConsoleError "Error creating invoice:" e; SetLoading false],
                           inr tt))
          \/ (exists invoice_id,
                insertInvoice backend row = inr invoice_id
                /\ insertItems backend (itemRows invoice_id (items s)) = None
                /\ task = ([SetLoading true; InsertInvoice row;
                            InsertItems (itemRows invoice_id (items s));
                            Navigate "/invoices"; SetLoading false],
                           inr tt)))).
Proof.
  cbv zeta. unfold NewInvoice_handleSave.
  destruct (negb (truthy_str (Some (client_id (invoiceData s))))
            || negb (truthy_str (Some (title (invoiceData s))))) eqn:G.
  - left. split; trivial.
    apply orb_true_iff in G. rewrite !negb_true_iff in G. cbn [truthy_str] in G.
    rewrite !negb_false_iff, !String.eqb_eq in G. exact G.
  - right. apply handleSave_guard in G. destruct G as [Gc Gt]. do 2 (split; trivial).
    unfold next, tryFinally, tryCatch, query, call.
    destruct (insertInvoice backend (newInvoiceRow user_id now s status))
      as [ e | invoice_id ] eqn:E1.
    + left. now exists e.
    + right. destruct (insertItems backend (itemRows invoice_id (items s))) as [ e | ] eqn:E2.
      * left. exists invoice_id, e. now rewrite E2.
      * right. exists invoice_id. now rewrite E2.
Qed.

(** X12. [handleSave] of a new invoice never rejects: without a client or
    a title it does nothing at all, and otherwise it turns the loading
    flag on first and off last, whatever the backend answers. *)
Theorem handleSave_settles backend user_id now s status :
  let task := NewInvoice_handleSave backend user_id now s status in
  snd task = inr tt
  /\ ((client_id (invoiceData s) = "" \/ title (invoiceData s) = "") -> fst task = [])
  /\ (client_id (invoiceData s) <> "" -> title (invoiceData s) <> "" ->
      exists calls,
        fst task = SetLoading true :: calls ++ [SetLoading false]
        /\ forall loading, ~ In (SetLoading loading) calls).
Proof.
  cbv zeta.
  destruct (handleSave_cases backend user_id now s status)
    as [ [G ->] | (Gc & Gt & [ (e & _ & ->) | [ (i & e & _ & _ & ->) | (i & _ & _ & ->) ] ]) ];
    cbn [fst snd]; (split; [ reflexivity | ]); split; try tauto; intros _ _.
  - exists [InsertInvoice (newInvoiceRow user_id now s status);
            ConsoleError "Error creating invoice:" e].
    split; trivial. intros l [ H | [ H | [] ] ]; discriminate H.
  - exists [InsertInvoice (newInvoiceRow user_id now s status);
            InsertItems (itemRows i (items s));
            ConsoleError "Error creating invoice:" e].
    split; trivial. intros l [ H | [ H | [ H | [] ] ] ]; discriminate H.
  - exists [InsertInvoice (newInvoiceRow user_id now s status);
            InsertItems (itemRows i (items s));
            Navigate "/invoices"].
    split; trivial. intros l [ H | [ H | [ H | [] ] ] ]; discriminate H.
Qed.


Lemma itemRows_amounts invoice_id (items : list InvoiceItem) : forall acc,
  fold_left (fun sum row => sum + ItemRow.amount row) (itemRows invoice_id items) acc
  = fold_left (fun sum item => sum + amount item) items acc.
Proof.
  induction items as [ | item items IH ]; intros acc; trivial.
  cbn [itemRows map fold_left ItemRow.amount]. apply IH.
Qed.

(** What the rows sent to the backend have in common with the rows of
    the form. *)
Lemma itemRows_faithful invoice_id (items : list InvoiceItem) :
  map (fun row => (ItemRow.description row, ItemRow.quantity row, ItemRow.rate row,
                   ItemRow.amount row))
      (itemRows invoice_id items)
  = map (fun item => (description item, quantity item, rate item, amount item)) items
  /\ Forall (fun row => ItemRow.invoice_id row = invoice_id) (itemRows invoice_id items).
Proof.
  unfold itemRows. rewrite map_map, Forall_map. split; trivial.
  apply Forall_forall. reflexivity.
Qed.

(** X14. What a new invoice stores is consistent: the subtotal of the
    invoice row is the sum, in order, of the amounts of the item rows sent
    after it, tax amount and total follow from it and the tax rate, and
    the item rows are the rows of the form, in order, each with the id of
    the stored invoice. *)
Theorem stored_invoice_matches_stored_rows backend user_id now s status row rows :
  In (InsertInvoice row) (fst (NewInvoice_handleSave backend user_id now s status)) ->
  In (InsertItems rows) (fst (NewInvoice_handleSave backend user_id now s status)) ->
  InvoiceRow.subtotal row = fold_left (fun sum r => sum + ItemRow.amount r) rows 0
  /\ InvoiceRow.tax_amount row = InvoiceRow.subtotal row * (InvoiceRow.tax_rate row / 100)
  /\ InvoiceRow.total row = InvoiceRow.subtotal row + InvoiceRow.tax_amount row
  /\ map (fun r => (ItemRow.description r, ItemRow.quantity r, ItemRow.rate r,
                    ItemRow.amount r)) rows
     = map (fun item => (description item, quantity item, rate item, amount item)) (items s)
  /\ exists invoice_id,
       insertInvoice backend row = inr invoice_id
       /\ Forall (fun r => ItemRow.invoice_id r = invoice_id) rows.
Proof.
  destruct (handleSave_cases backend user_id now s status)
    as [ [G ->] | (Gc & Gt & [ (e & E1 & ->) | [ (i & e & E1 & E2 & ->) | (i & E1 & E2 & ->) ] ]) ];
    cbn [fst]; intros Hrow Hrows.
  - destruct Hrow.
  - destruct Hrows as [ H | [ H | [ H | [ H | [] ] ] ] ]; discriminate H.
  - destruct Hrow as [ H | [ H | [ H | [ H | [ H | [] ] ] ] ] ]; try discriminate H.
    injection H as <-.
    destruct Hrows as [ H | [ H | [ H | [ H | [ H | [] ] ] ] ] ]; try discriminate H.
    injection H as <-.
    rewrite itemRows_amounts. repeat split; try apply itemRows_faithful.
    exists i. split; trivial. apply itemRows_faithful.
  - destruct Hrow as [ H | [ H | [ H | [ H | [ H | [] ] ] ] ] ]; try discriminate H.
    injection H as <-.
    destruct Hrows as [ H | [ H | [ H | [ H | [ H | [] ] ] ] ] ]; try discriminate H.
    injection H as <-.
    rewrite itemRows_amounts. repeat split; try apply itemRows_faithful.
    exists i. split; trivial. apply itemRows_faithful.
Qed.

Lemma stored_invoice_matches_stored_rows_witness :
  InvoiceRow.subtotal (newInvoiceRow "u1" "1700000000001" sampleForm AsSent)
  = fold_left (fun sum r => sum + ItemRow.amount r) (itemRows "inv-1" (items sampleForm)) 0
  /\ InvoiceRow.tax_amount (newInvoiceRow "u1" "1700000000001" sampleForm AsSent)
     = InvoiceRow.subtotal (newInvoiceRow "u1" "1700000000001" sampleForm AsSent)
       * (InvoiceRow.tax_rate (newInvoiceRow "u1" "1700000000001" sampleForm AsSent) / 100)
  /\ InvoiceRow.total (newInvoiceRow "u1" "1700000000001" sampleForm AsSent)
     = InvoiceRow.subtotal (newInvoiceRow "u1" "1700000000001" sampleForm AsSent)
       + InvoiceRow.tax_amount (newInvoiceRow "u1" "1700000000001" sampleForm AsSent)
  /\ map (fun r => (ItemRow.description r, ItemRow.quantity r, ItemRow.rate r,
                    ItemRow.amount r)) (itemRows "inv-1" (items sampleForm))
     = map (fun item => (description item, quantity item, rate item, amount item))
           (items sampleForm)
  /\ exists invoice_id,
       insertInvoice (sampleBackend false)
                     (newInvoiceRow "u1" "1700000000001" sampleForm AsSent) = inr invoice_id
       /\ Forall (fun r => ItemRow.invoice_id r = invoice_id)
                 (itemRows "inv-1" (items sampleForm)).
Proof.
  apply (stored_invoice_matches_stored_rows (sampleBackend false) "u1" "1700000000001"
           sampleForm AsSent).
  - right. left. reflexivity.
  - right. right. left. reflexivity.
Defined.

(** No call of a list of calls has the form in question. *)
Ltac absent H := repeat (destruct H as [ H | H ]; [ discriminate H | ]); destruct H.

(** The four ways "Save Changes" can go. *)
Lemma saveChanges_cases backend editingInvoice s :
  let id' := Invoice.id editingInvoice in
  let row := editedInvoice s in
  let rows := itemRows id' (items s) in
  let task := saveChanges backend editingInvoice s in
  (exists e, updateInvoice backend id' row = Some e
     /\ task = ([SetLoading true; UpdateInvoice id' row;
                 ConsoleError "Error saving invoice:" e;
                 ConsoleError "Error saving invoice:" e; SetLoading false], inr tt))
  \/ (exists e, updateInvoice backend id' row = None /\ deleteItems backend id' = Some e
        /\ task = ([SetLoading true; UpdateInvoice id' row; DeleteItems id';
                    ConsoleError "Error saving invoice:" e;
                    ConsoleError "Error saving invoice:" e; SetLoading false], inr tt))
  \/ (exists e, updateInvoice backend id' row = None /\ deleteItems backend id' = None
        /\ insertItems backend rows = Some e
        /\ task = ([SetLoading true; UpdateInvoice id' row; DeleteItems id';
                    InsertItems rows;
                    ConsoleError "Error saving invoice:" e;
                    ConsoleError "Error saving invoice:" e; SetLoading false], inr tt))
  \/ (updateInvoice backend id' row = None /\ deleteItems backend id' = None
      /\ insertItems backend rows = None
      /\ task = ([SetLoading true; UpdateInvoice id' row; DeleteItems id';
                  InsertItems rows; LoadInvoices;
                  SetEditingInvoice None; SetEditingInvoice None; SetLoading false],
                 inr tt)).
Proof.
  cbv zeta.
  unfold saveChanges, InvoiceEditor_handleSave, handleSaveInvoice,
    next, tryFinally, tryCatch, query, call, throw, thrown.
  destruct (updateInvoice backend (Invoice.id editingInvoice) (editedInvoice s))
    as [ e | ] eqn:E1; [ left; now exists e | right ].
  destruct (deleteItems backend (Invoice.id editingInvoice))
    as [ e | ] eqn:E2; [ left; now exists e | right ].
  destruct (insertItems backend (itemRows (Invoice.id editingInvoice) (items s)))
    as [ e | ] eqn:E3; [ left; now exists e | right ].
  auto.
Qed.

(** X15. "Save Changes" never rejects and always turns the loading flag
    off again. The editor is closed, and the list reloaded, exactly when
    the update of the invoice, the deletion of its rows and the insert of
    the new rows all succeeded; after any failure the error is logged and
    the editor stays open. *)
Theorem saveChanges_closes_iff_saved backend editingInvoice s :
  let id' := Invoice.id editingInvoice in
  let task := saveChanges backend editingInvoice s in
  let saved :=
    updateInvoice backend id' (editedInvoice s) = None
    /\ deleteItems backend id' = None
    /\ insertItems backend (itemRows id' (items s)) = None in
  snd task = inr tt
  /\ last (fst task) (SetLoading true) = SetLoading false
  /\ (In (SetEditingInvoice None) (fst task) <-> saved)
  /\ (In LoadInvoices (fst task) <-> saved)
  /\ ((exists e, In (ConsoleError "Error saving invoice:" e) (fst task)) <-> ~ saved).
Proof.
  cbv zeta.
  destruct (saveChanges_cases backend editingInvoice s)
    as [ (e & E1 & ->) | [ (e & E1 & E2 & ->) | [ (e & E1 & E2 & E3 & ->)
                                               | (E1 & E2 & E3 & ->) ] ] ];
    cbn [fst snd]; (split; [ reflexivity | ]); (split; [ reflexivity | ]).
  - split; [ | split ].
    + split; [ intros H; absent H | intros (H & _); congruence ].
    + split; [ intros H; absent H | intros (H & _); congruence ].
    + split; [ intros _ (H & _); congruence | intros _; exists e; cbn; auto ].
  - split; [ | split ].
    + split; [ intros H; absent H | intros (_ & H & _); congruence ].
    + split; [ intros H; absent H | intros (_ & H & _); congruence ].
    + split; [ intros _ (_ & H & _); congruence | intros _; exists e; cbn; auto ].
  - split; [ | split ].
    + split; [ intros H; absent H | intros (_ & _ & H); congruence ].
    + split; [ intros H; absent H | intros (_ & _ & H); congruence ].
    + split; [ intros _ (_ & _ & H); congruence | intros _; exists e; cbn; auto 10 ].
  - split; [ | split ].
    + split; [ auto | intros _; cbn; auto 10 ].
    + split; [ auto | intros _; cbn; auto 10 ].
    + split; [ intros [e H]; absent H | intros H; elim H; auto ].
Qed.

(** X16. The rows of an edited invoice are replaced in two steps that are
    not undone: when the update and the deletion succeed and the insert of
    the new rows fails, the old rows have been deleted, nothing is sent
    after the failed insert, and the editor stays open with the error
    logged by the page and by the editor. *)
Theorem failed_insert_leaves_rows_deleted backend editingInvoice s e :
  updateInvoice backend (Invoice.id editingInvoice) (editedInvoice s) = None ->
  deleteItems backend (Invoice.id editingInvoice) = None ->
  insertItems backend (itemRows (Invoice.id editingInvoice) (items s)) = Some e ->
  saveChanges backend editingInvoice s
  = ([SetLoading true;
      UpdateInvoice (Invoice.id editingInvoice) (editedInvoice s);
      DeleteItems (Invoice.id editingInvoice);
      InsertItems (itemRows (Invoice.id editingInvoice) (items s));
      ConsoleError "Error saving invoice:" e;
      ConsoleError "Error saving invoice:" e;
      SetLoading false],
     inr tt).
Proof.
  intros E1 E2 E3.
  destruct (saveChanges_cases backend editingInvoice s)
    as [ (e' & E1' & _) | [ (e' & _ & E2' & _) | [ (e' & _ & _ & E3' & ->)
                                                | (_ & _ & E3' & _) ] ] ];
    congruence.
Qed.

Lemma failed_insert_leaves_rows_deleted_witness :
  saveChanges (sampleBackend true) sampleInvoice sampleEditor
  = ([SetLoading true;
      UpdateInvoice (Invoice.id sampleInvoice) (editedInvoice sampleEditor);
      DeleteItems (Invoice.id sampleInvoice);
      InsertItems (itemRows (Invoice.id sampleInvoice) (items sampleEditor));
      ConsoleError "Error saving invoice:" "insert failed";
      ConsoleError "Error saving invoice:" "insert failed";
      SetLoading false],
     inr tt).
Proof.
  apply (failed_insert_leaves_rows_deleted (sampleBackend true) sampleInvoice sampleEditor
           "insert failed"); reflexivity.
Defined.

(** X17. What the editor sends is consistent: the subtotal of the updated
    invoice is the sum, in order, of the amounts of the rows inserted for
    it, tax amount and total follow from it and the tax rate, and the
    inserted rows are the rows of the editor, in order, under the id of
    the edited invoice, whose old rows are deleted under the same id. *)
Theorem updated_invoice_matches_inserted_rows backend editingInvoice s id' row rows :
  In (UpdateInvoice id' row) (fst (saveChanges backend editingInvoice s)) ->
  In (InsertItems rows) (fst (saveChanges backend editingInvoice s)) ->
  id' = Invoice.id editingInvoice
  /\ In (DeleteItems id') (fst (saveChanges backend editingInvoice s))
  /\ InvoiceUpdate.subtotal row = fold_left (fun sum r => sum + ItemRow.amount r) rows 0
  /\ InvoiceUpdate.tax_amount row
     = InvoiceUpdate.subtotal row * (InvoiceUpdate.tax_rate row / 100)
  /\ InvoiceUpdate.total row = InvoiceUpdate.subtotal row + InvoiceUpdate.tax_amount row
  /\ map (fun r => (ItemRow.description r, ItemRow.quantity r, ItemRow.rate r,
                    ItemRow.amount r)) rows
     = map (fun item => (description item, quantity item, rate item, amount item)) (items s)
  /\ Forall (fun r => ItemRow.invoice_id r = id') rows.
Proof.
  destruct (saveChanges_cases backend editingInvoice s)
    as [ (e & E1 & ->) | [ (e & E1 & E2 & ->) | [ (e & E1 & E2 & E3 & ->)
                                               | (E1 & E2 & E3 & ->) ] ] ];
    cbn [fst]; intros Hrow Hrows.
  - destruct Hrows as [ H | [ H | [ H | [ H | [ H | [] ] ] ] ] ]; discriminate H.
  - destruct Hrows as [ H | [ H | [ H | [ H | [ H | [ H | [] ] ] ] ] ] ]; discriminate H.
  - destruct Hrow as [ H | [ H | [ H | [ H | [ H | [ H | [ H | [] ] ] ] ] ] ] ];
      try discriminate H. injection H as <- <-.
    destruct Hrows as [ H | [ H | [ H | [ H | [ H | [ H | [ H | [] ] ] ] ] ] ] ];
      try discriminate H. injection H as <-.
    rewrite itemRows_amounts.
    repeat split; try apply itemRows_faithful. right; right; now left.
  - destruct Hrow as [ H | [ H | [ H | [ H | [ H | [ H | [ H | [ H | [] ] ] ] ] ] ] ] ];
      try discriminate H. injection H as <- <-.
    destruct Hrows as [ H | [ H | [ H | [ H | [ H | [ H | [ H | [ H | [] ] ] ] ] ] ] ] ];
      try discriminate H. injection H as <-.
    rewrite itemRows_amounts.
    repeat split; try apply itemRows_faithful. right; right; now left.
Qed.

Lemma updated_invoice_matches_inserted_rows_witness :
  Invoice.id sampleInvoice = Invoice.id sampleInvoice
  /\ In (DeleteItems (Invoice.id sampleInvoice))
        (fst (saveChanges (sampleBackend false) sampleInvoice sampleEditor))
  /\ InvoiceUpdate.subtotal (editedInvoice sampleEditor)
     = fold_left (fun sum r => sum + ItemRow.amount r)
                 (itemRows (Invoice.id sampleInvoice) (items sampleEditor)) 0
  /\ InvoiceUpdate.tax_amount (editedInvoice sampleEditor)
     = InvoiceUpdate.subtotal (editedInvoice sampleEditor)
       * (InvoiceUpdate.tax_rate (editedInvoice sampleEditor) / 100)
  /\ InvoiceUpdate.total (editedInvoice sampleEditor)
     = InvoiceUpdate.subtotal (editedInvoice sampleEditor)
       + InvoiceUpdate.tax_amount (editedInvoice sampleEditor)
  /\ map (fun r => (ItemRow.description r, ItemRow.quantity r, ItemRow.rate r,
                    ItemRow.amount r))
         (itemRows (Invoice.id sampleInvoice) (items sampleEditor))
     = map (fun item => (description item, quantity item, rate item, amount item))
           (items sampleEditor)
  /\ Forall (fun r => ItemRow.invoice_id r = Invoice.id sampleInvoice)
            (itemRows (Invoice.id sampleInvoice) (items sampleEditor)).
Proof.
  apply (updated_invoice_matches_inserted_rows (sampleBackend false) sampleInvoice
           sampleEditor).
  - right. left. reflexivity.
  - right. right. right. left. reflexivity.
Defined.

(** * The rows of the PDF document *)

Lemma page_texts host format style a b tableStyle heading rows c d :
  textContent host
    (Document [Page format style [a; b; View tableStyle (heading :: rows); c; d]])
  = (textContent host a ++ textContent host b ++ textContent host heading)
    ++ flat_map (textContent host) rows
    ++ (textContent host c ++ textContent host d).
Proof.
  cbn [textContent flat_map]. now rewrite !app_nil_r, <- !app_assoc.
Qed.

Lemma tableRows_texts host format (items : list InvoiceItem) :
  flat_map (textContent host) (map (tableRow host (createStyles format)) items)
  = flat_map (fun item =>
                [description item;
                 numberToString host (quantity item);
                 ("$" ++ ES.toFixed (numberToString host) (rate item) 2)%string;
                 ("$" ++ ES.toFixed (numberToString host) (amount item) 2)%string])
             items.
Proof.
  induction items as [ | item items IH ]; trivial.
  cbn [map flat_map]. now rewrite IH, tableRow_text.
Qed.

(** X18. The PDF lists every line item, in the order of the list, as four
    texts: description, quantity, rate and amount, the last two with a
    dollar sign and two decimals. Nothing else in the document depends on
    the items: the totals printed after the rows are the stored subtotal,
    tax amount and total of the invoice, not sums over the rows shown. *)
Theorem pdf_lists_every_item host invoice client profile format :
  exists before,
  forall items,
    textContent host (InvoicePDF host invoice client profile items format)
    = before
      ++ flat_map (fun item =>
                     [description item;
                      numberToString host (quantity item);
                      ("$" ++ ES.toFixed (numberToString host) (rate item) 2)%string;
                      ("$" ++ ES.toFixed (numberToString host) (amount item) 2)%string])
                  items
      ++ ["Subtotal:";
          ("$" ++ ES.toFixed (numberToString host) (Invoice.subtotal invoice) 2)%string;
          ("Tax (" ++ numberToString host (Invoice.tax_rate invoice) ++ "%):")%string;
          ("$" ++ ES.toFixed (numberToString host) (Invoice.tax_amount invoice) 2)%string;
          "Total:";
          ("$" ++ ES.toFixed (numberToString host) (Invoice.total invoice) 2)%string]
      ++ (if truthy_str (Invoice.notes invoice)
          then ["Notes"; or_str (Invoice.notes invoice) ""]
          else []).
Proof.
  eexists. intros items.
  cbv beta zeta delta [InvoicePDF]. rewrite page_texts, tableRows_texts.
  f_equal. f_equal.
  destruct (Invoice.notes invoice) as [ n | ]; [ | reflexivity ].
  unfold and_then, or_str. destruct (truthy_str (Some n)); reflexivity.
Qed.

(** * Zero amounts and zero tax *)

Lemma is_zero_spec x : is_zero x = true <-> exists s, Prim2SF x = S754_zero s.
Proof.
  unfold is_zero. rewrite eqb_spec. change (Prim2SF zero) with (S754_zero false).
  destruct (Prim2SF x) as [ s | s | | s m e ]; cbn.
  - split; eauto.
  - split; [ now destruct s | intros [s' H]; discriminate H ].
  - split; [ discriminate | intros [s' H]; discriminate H ].
  - split; [ now destruct s | intros [s' H]; discriminate H ].
Qed.

(** A zero of either sign is neutral on the right for every value but
    the negative zero. *)
Lemma add_zero_any x z :
  Prim2SF x <> S754_zero true -> is_zero z = true -> x + z = x.
Proof.
  intros Hx Hz. apply is_zero_spec in Hz. destruct Hz as [s Hz].
  apply Prim2SF_inj. rewrite add_spec, Hz.
  destruct (Prim2SF x) as [ [ | ] | [ | ] | | sx m e ]; trivial;
    [ now elim Hx | now destruct s ].
Qed.

(** X19. A row whose amount is zero, wherever it stands in the list,
    changes no total. *)
Theorem zero_amount_row_does_not_count before item after taxRate :
  is_zero (amount item) = true ->
  calculateTotals (before ++ item :: after) taxRate
  = calculateTotals (before ++ after) taxRate.
Proof.
  intros Hz. unfold calculateTotals. rewrite !fold_left_app. cbn [fold_left].
  rewrite add_zero_any; trivial.
  apply fold_amount_not_negative_zero. discriminate.
Qed.

Lemma zero_amount_row_does_not_count_witness :
  calculateTotals ([mkItem "1" "Design" 2 50 100] ++ mkItem "2" "Gift" 3 0 0
                   :: [mkItem "3" "Hosting" 1 100 100]) 10
  = calculateTotals ([mkItem "1" "Design" 2 50 100] ++ [mkItem "3" "Hosting" 1 100 100]) 10.
Proof.
  apply (zero_amount_row_does_not_count [mkItem "1" "Design" 2 50 100]
           (mkItem "2" "Gift" 3 0 0) [mkItem "3" "Hosting" 1 100 100] 10).
  reflexivity.
Defined.

Lemma zero_percent taxRate :
  is_zero taxRate = true -> is_zero (taxRate / 100) = true.
Proof.
  rewrite !is_zero_spec, div_spec, Binary64.Prim2SF_hundred.
  intros [s ->]. cbn. eauto.
Qed.

Lemma finite_mul_zero x z :
  is_finite x = true -> is_zero z = true -> is_zero (x * z) = true.
Proof.
  rewrite Binary64.is_finite_spec, !is_zero_spec, mul_spec. intros Hx [s ->].
  destruct (Prim2SF x) as [ sx | sx | | sx m e ]; try discriminate Hx; cbn; eauto.
Qed.

(** X20. Without tax the total is the subtotal: for a tax rate of zero
    and a finite subtotal, the tax amount is zero and the total is the
    subtotal itself. *)
Theorem no_tax_total_is_subtotal items taxRate :
  is_zero taxRate = true ->
  is_finite (subtotal (calculateTotals items taxRate)) = true ->
  is_zero (taxAmount (calculateTotals items taxRate)) = true
  /\ total (calculateTotals items taxRate) = subtotal (calculateTotals items taxRate).
Proof.
  unfold calculateTotals. cbn [subtotal taxAmount total]. intros Hz Hf.
  pose proof (finite_mul_zero _ _ Hf (zero_percent _ Hz)) as Ht.
  split; trivial. apply add_zero_any; trivial.
  apply fold_amount_not_negative_zero. discriminate.
Qed.

Lemma no_tax_total_is_subtotal_witness :
  is_zero (taxAmount (calculateTotals [mkItem "1" "Design" 2 50 100] 0)) = true
  /\ total (calculateTotals [mkItem "1" "Design" 2 50 100] 0)
     = subtotal (calculateTotals [mkItem "1" "Design" 2 50 100] 0).
Proof.
  apply (no_tax_total_is_subtotal [mkItem "1" "Design" 2 50 100] 0); reflexivity.
Defined.

(** * Callers on the page of invoices *)

(** X21. [handleDownload] hands a document over exactly when an invoice
    is selected, its client and the profile are loaded, and the PDF
    generation succeeds. It catches nothing: it rejects exactly when all
    three are there and the generation fails, with that error and without
    having touched the page; with one of the three missing it returns
    without doing anything. *)
Theorem handleDownload_outcomes host selectedInvoice client profile invoiceItems format :
  let task := handleDownload host selectedInvoice client profile invoiceItems format in
  (delivered task
   <-> exists i c p blob,
         selectedInvoice = Some i /\ client = Some c /\ profile = Some p
         /\ generateInvoicePDF host i c p invoiceItems format = inr blob)
  /\ (forall e,
        snd task = inl e
        <-> exists i c p,
              selectedInvoice = Some i /\ client = Some c /\ profile = Some p
              /\ generateInvoicePDF host i c p invoiceItems format = inl e)
  /\ (forall e, snd task = inl e -> fst task = [])
  /\ (selectedInvoice = None \/ client = None \/ profile = None -> task = ([], inr tt)).
Proof.
  cbv zeta. unfold handleDownload, delivered.
  destruct selectedInvoice as [ i | ], client as [ c | ], profile as [ p | ];
    try (split;
         [ split;
           [ intros [ (h & d & []) | [] ]
           | intros (i' & c' & p' & b & H1 & H2 & H3 & _); discriminate ]
         | split;
           [ intros e; split;
             [ discriminate
             | intros (i' & c' & p' & H1 & H2 & H3 & _); discriminate ]
           | split; [ reflexivity | reflexivity ] ] ]).
  unfold downloadInvoicePDF, andThen, await, perform.
  destruct (generateInvoicePDF host i c p invoiceItems format) as [ e | blob ] eqn:E;
    cbn [fst snd].
  - split; [ | split; [ | split ] ].
    + split.
      * intros [ (h & d & []) | [] ].
      * intros (i' & c' & p' & b & H1 & H2 & H3 & H).
        injection H1 as <-. injection H2 as <-. injection H3 as <-. congruence.
    + intros e'. split.
      * intros H. injection H as <-. now exists i, c, p.
      * intros (i' & c' & p' & H1 & H2 & H3 & H).
        injection H1 as <-. injection H2 as <-. injection H3 as <-. congruence.
    + reflexivity.
    + intros [ H | [ H | H ] ]; discriminate H.
  - split; [ | split; [ | split ] ].
    + split.
      * intros _. now exists i, c, p, blob.
      * intros _. left. eexists. eexists. right. left. reflexivity.
    + intros e'. split.
      * discriminate.
      * intros (i' & c' & p' & H1 & H2 & H3 & H).
        injection H1 as <-. injection H2 as <-. injection H3 as <-. congruence.
    + discriminate.
    + intros [ H | [ H | H ] ]; discriminate H.
Qed.

(** X22. [loadInvoices] never rejects and ends by turning the loading
    flag off. After a failed query the list is not set and the error is
    logged. After a successful query the list is set, once, to one entry
    per returned row, in order: the entry carries the columns of the row,
    and as client name the name of the joined client when there is one and
    its name is not empty, and "Unknown Client" otherwise, so that no
    entry has an empty client name; for [data = null] the list is set to
    the empty list. *)
Theorem loadInvoices_outcomes user_id response :
  let task := loadInvoices user_id response in
  snd task = inr tt
  /\ (forall e,
        response = inl e ->
        fst task = [SelectInvoices user_id; ConsoleError "Error loading invoices:" e;
                    SetLoading false])
  /\ (forall data,
        response = inr data ->
        exists invoices,
          fst task = [SelectInvoices user_id; SetInvoices invoices; SetLoading false]
          /\ Forall2 (fun invoice row =>
                        Listed.invoice invoice = Selected.invoice row
                        /\ Listed.client_name invoice <> ""
                        /\ ((exists name,
                               Selected.clients row = Some name /\ name <> ""
                               /\ Listed.client_name invoice = name)
                            \/ ((Selected.clients row = None
                                 \/ Selected.clients row = Some "")
                                /\ Listed.client_name invoice = "Unknown Client")))
                     invoices match data with Some rows => rows | None => [] end).
Proof.
  cbv zeta. unfold loadInvoices, tryFinally, tryCatch, next, query, call.
  destruct response as [ e | data ]; cbn [fst snd].
  - split; [ reflexivity | split ].
    + intros e' H. injection H as <-. reflexivity.
    + intros data H. discriminate H.
  - split; [ reflexivity | split ].
    + intros e H. discriminate H.
    + intros data' H. injection H as <-.
      eexists. split; [ reflexivity | ].
      destruct data as [ rows | ]; [ | constructor ].
      induction rows as [ | row rows IH ]; cbn [map]; constructor; trivial.
      unfold listed, or_str. cbn [Listed.invoice Listed.client_name].
      split; [ reflexivity | ].
      destruct (Selected.clients row) as [ name | ].
      * cbn [truthy_str]. destruct (String.eqb name "") eqn:E; cbn [negb].
        -- apply String.eqb_eq in E. subst name.
           split; [ discriminate | right; auto ].
        -- apply String.eqb_neq in E.
           split; [ exact E | left; now exists name ].
      * split; [ discriminate | right; auto ].
Qed.

(** * Order of the totals *)

Module Binary64Order.

Local Open Scope Z_scope.

Lemma iter_xO m d : Z.pos (Pos.iter xO m d) = Z.pos m * 2 ^ Z.pos d.
Proof.
  induction d as [ | d IH ] using Pos.peano_ind.
  - cbn [Pos.iter]. rewrite Z.pow_1_r. lia.
  - rewrite Pos.iter_succ, Pos2Z.inj_succ, Z.pow_succ_r by lia.
    rewrite Pos2Z.inj_xO, IH. lia.
Qed.

Lemma digits_iter_xO m d :
  Z.pos (digits2_pos (Pos.iter xO m d)) = Z.pos (digits2_pos m) + Z.pos d.
Proof.
  induction d as [ | d IH ] using Pos.peano_ind.
  - cbn [Pos.iter digits2_pos]. lia.
  - rewrite Pos.iter_succ. cbn [digits2_pos]. rewrite !Pos2Z.inj_succ, IH. lia.
Qed.

(** [shl_align] lowers the exponent to the smaller of the two and scales
    the mantissa. *)
Lemma shl_align_spec m e e' :
  snd (shl_align m e e') = Z.min e e'
  /\ Z.pos (fst (shl_align m e e')) = Z.pos m * 2 ^ (e - Z.min e e')
  /\ Z.pos (digits2_pos (fst (shl_align m e e')))
     = Z.pos (digits2_pos m) + (e - Z.min e e').
Proof.
  unfold shl_align. destruct (e' - e) as [ | d | d ] eqn:E; cbn [fst snd].
  - replace (Z.min e e') with e by lia. rewrite Z.sub_diag. cbn. lia.
  - replace (Z.min e e') with e by lia. rewrite Z.sub_diag. cbn. lia.
  - replace (Z.min e e') with e' by lia.
    replace (e - e') with (Z.pos d) by lia.
    rewrite iter_xO, digits_iter_xO. auto.
Qed.

Lemma digits_scaled m k :
  0 <= k -> Zdigits2 (Z.pos m * 2 ^ k) = Z.pos (digits2_pos m) + k.
Proof.
  intros Hk. destruct k as [ | d | d ]; try lia.
  - rewrite Z.mul_1_r. cbn. lia.
  - rewrite <- iter_xO. cbn [Zdigits2]. apply digits_iter_xO.
Qed.

Lemma shr_1_floor mrs k : 2 * k <= shr_m mrs -> k <= shr_m (shr_1 mrs).
Proof.
  destruct mrs as [m r s]. cbn [shr_m shr_1].
  destruct m as [ | [ p | p | ] | [ p | p | ] ]; cbn [shr_m]; lia.
Qed.

Lemma iter_shr_1_floor p : forall mrs k,
  k * 2 ^ Z.pos p <= shr_m mrs -> k <= shr_m (iter_pos shr_1 p mrs).
Proof.
  induction p as [ p IH | p IH | ]; intros mrs k H; cbn [iter_pos].
  - apply IH. apply IH. apply shr_1_floor.
    replace (Z.pos p~1) with (Z.pos p + Z.pos p + 1) in H by lia.
    rewrite !Z.pow_add_r, Z.pow_1_r in H by lia. lia.
  - apply IH. apply IH.
    replace (Z.pos p~0) with (Z.pos p + Z.pos p) in H by lia.
    rewrite Z.pow_add_r in H by lia. lia.
  - apply shr_1_floor. rewrite Z.pow_1_r in H. lia.
Qed.

(** After [shr_fexp] on a mantissa whose canonical exponent [F] is not
    below the given one: the exponent is [F], and the mantissa is at least
    every [k] with [k * 2^(F - e) <= m]. *)
Lemma shr_fexp_floor m e l k :
  0 < m -> e <= fexp prec emax (Zdigits2 m + e) ->
  k * 2 ^ (fexp prec emax (Zdigits2 m + e) - e) <= m ->
  snd (shr_fexp prec emax m e l) = fexp prec emax (Zdigits2 m + e)
  /\ k <= shr_m (fst (shr_fexp prec emax m e l)).
Proof.
  intros Hm He Hk. unfold shr_fexp, shr.
  destruct (fexp prec emax (Zdigits2 m + e) - e) as [ | p | p ] eqn:E; cbn [fst snd];
    try lia.
  - rewrite Binary64.shr_record_of_loc_m. rewrite Z.pow_0_r in Hk. lia.
  - split; [ lia | ]. apply iter_shr_1_floor.
    now rewrite Binary64.shr_record_of_loc_m.
Qed.

(** The exponent after [shr_fexp] is not below the given one; where it
    is the given one the mantissa is unchanged. *)
Lemma shr_fexp_same m e l :
  e <= snd (shr_fexp prec emax m e l)
  /\ (snd (shr_fexp prec emax m e l) = e ->
      shr_m (fst (shr_fexp prec emax m e l)) = m).
Proof.
  unfold shr_fexp, shr.
  destruct (fexp prec emax (Zdigits2 m + e) - e) as [ | p | p ]; cbn [fst snd];
    rewrite ?Binary64.shr_record_of_loc_m; lia.
Qed.

(** Rounding keeps a value above a canonical value below it. *)
Lemma binary_round_aux_lower mx ex m e l :
  0 < m -> SpecFloat.emin prec emax <= e ->
  e <= fexp prec emax (Zdigits2 m + e) ->
  ex <= fexp prec emax (Zdigits2 m + e) ->
  (fexp prec emax (Zdigits2 m + e) = ex ->
   Z.pos mx * 2 ^ (fexp prec emax (Zdigits2 m + e) - e) <= m) ->
  SFleb (S754_finite false mx ex) (binary_round_aux prec emax false m e l) = true.
Proof.
  intros Hm He HF Hex Hmx. unfold binary_round_aux.
  pose proof (Binary64Sum.shr_fexp_positive m e l Hm He) as [H1 H1e].
  assert (HF1 : snd (shr_fexp prec emax m e l) = fexp prec emax (Zdigits2 m + e)).
  { apply (shr_fexp_floor m e l 0); trivial. lia. }
  assert (Hm1 : fexp prec emax (Zdigits2 m + e) = ex ->
                Z.pos mx <= shr_m (fst (shr_fexp prec emax m e l))).
  { intros E. apply (shr_fexp_floor m e l (Z.pos mx)); auto. }
  destruct (shr_fexp prec emax m e l) as [mrs' e']. cbn [fst snd] in *. subst e'.
  pose proof (Binary64.round_nearest_even_bounds (shr_m mrs') (loc_of_shr_record mrs'))
    as Hr.
  set (m2 := round_nearest_even (shr_m mrs') (loc_of_shr_record mrs')) in *.
  pose proof (Binary64Sum.shr_fexp_positive m2 _ loc_Exact ltac:(lia) H1e) as [H2 _].
  pose proof (shr_fexp_same m2 (fexp prec emax (Zdigits2 m + e)) loc_Exact) as [H2e H2m].
  destruct (shr_fexp prec emax m2 (fexp prec emax (Zdigits2 m + e)) loc_Exact)
    as [mrs'' e'']. cbn [fst snd] in *.
  destruct (shr_m mrs'') as [ | p | p ] eqn:Ep; try lia.
  destruct (e'' <=? emax - prec); [ | reflexivity ].
  unfold SFleb, SFcompare.
  destruct (Z.compare_spec ex e'') as [ E | E | E ]; trivial; [ | lia ].
  assert (Hp : Z.pos mx <= Z.pos p).
  { specialize (H2m ltac:(lia)). specialize (Hm1 ltac:(lia)). lia. }
  change (PosDef.Pos.compare_cont Eq mx p) with (Pos.compare mx p).
  destruct (Pos.compare_spec mx p); trivial. lia.
Qed.

Lemma binary_round_lower mx ex M ez :
  SpecFloat.emin prec emax <= ez ->
  fexp prec emax (Z.pos (digits2_pos mx) + ex) = ex ->
  ez <= ex ->
  Z.pos mx * 2 ^ (ex - ez) <= Z.pos M ->
  SFleb (S754_finite false mx ex) (binary_round prec emax false M ez) = true.
Proof.
  intros Hez Hcan Hle HM. unfold binary_round.
  pose proof (shl_align_spec M ez (fexp prec emax (Z.pos (digits2_pos M) + ez)))
    as (He1 & Hmz & Hdz).
  destruct (shl_align M ez (fexp prec emax (Z.pos (digits2_pos M) + ez))) as [mz e1].
  cbn [fst snd] in He1, Hmz, Hdz.
  assert (Hd : Zdigits2 (Z.pos mz) + e1 = Z.pos (digits2_pos M) + ez)
    by (cbn [Zdigits2]; lia).
  assert (HdM : Z.pos (digits2_pos mx) + (ex - ez) <= Z.pos (digits2_pos M)).
  { rewrite <- digits_scaled by lia.
    apply (Binary64.Zdigits2_mono _ (Z.pos M)). lia. }
  assert (HF : fexp prec emax (Z.pos (digits2_pos M) + ez)
               = Z.max (Z.pos (digits2_pos M) + ez - 53) (-1074)) by reflexivity.
  assert (Hcan' : Z.max (Z.pos (digits2_pos mx) + ex - 53) (-1074) = ex) by exact Hcan.
  assert (Hez' : -1074 <= ez) by exact Hez.
  apply binary_round_aux_lower; rewrite ?Hd.
  - lia.
  - change (-1074 <= e1). lia.
  - lia.
  - lia.
  - intros E.
    replace (fexp prec emax (Z.pos (digits2_pos M) + ez) - e1)
      with ((ex - ez) + (ez - e1)) by lia.
    rewrite Z.pow_add_r, Hmz, Z.mul_assoc by lia.
    replace (ez - Z.min ez (fexp prec emax (Z.pos (digits2_pos M) + ez)))
      with (ez - e1) by lia.
    apply Z.mul_le_mono_nonneg_r; [ apply Z.pow_nonneg; lia | exact HM ].
Qed.

(** A sum of two non-negative values is not below the first. *)
Lemma SFadd_lower x y :
  valid_binary x = true -> valid_binary y = true ->
  SFnonneg x = true -> SFnonneg y = true -> SFleb x (SF64add x y) = true.
Proof.
  intros Hx Hy.
  destruct x as [ sx | [ | ] | | [ | ] mx ex ]; try discriminate;
    destruct y as [ sy | [ | ] | | [ | ] my ey ]; try discriminate; intros _ _;
    try reflexivity.
  - now destruct sx, sy.
  - unfold SF64add, SFadd, SFleb, SFcompare.
    now rewrite Z.compare_refl, Pos.compare_cont_refl.
  - unfold SF64add, SFadd, cond_Zopp.
    pose proof (Binary64Sum.valid_exponent _ _ _ Hx) as Hex.
    pose proof (Binary64Sum.valid_exponent _ _ _ Hy) as Hey.
    pose proof (shl_align_spec mx ex (Z.min ex ey)) as (_ & Ha & _).
    replace (Z.min ex (Z.min ex ey)) with (Z.min ex ey) in Ha by lia.
    cbn [binary_normalize Z.add].
    apply binary_round_lower.
    + lia.
    + cbn in Hx. unfold bounded, canonical_mantissa in Hx.
      apply andb_prop in Hx. destruct Hx as [Hx _]. now apply Z.eqb_eq in Hx.
    + lia.
    + rewrite Pos2Z.inj_add, <- Ha. lia.
Qed.

(** ... and not below the second. *)
Lemma SFadd_lower_r x y :
  valid_binary x = true -> valid_binary y = true ->
  SFnonneg x = true -> SFnonneg y = true -> SFleb y (SF64add x y) = true.
Proof.
  intros Hx Hy.
  destruct x as [ sx | [ | ] | | [ | ] mx ex ]; try discriminate;
    destruct y as [ sy | [ | ] | | [ | ] my ey ]; try discriminate; intros _ _;
    try reflexivity.
  - now destruct sx, sy.
  - unfold SF64add, SFadd, SFleb, SFcompare.
    now rewrite Z.compare_refl, Pos.compare_cont_refl.
  - unfold SF64add, SFadd, cond_Zopp.
    pose proof (Binary64Sum.valid_exponent _ _ _ Hx) as Hex.
    pose proof (Binary64Sum.valid_exponent _ _ _ Hy) as Hey.
    pose proof (shl_align_spec my ey (Z.min ex ey)) as (_ & Ha & _).
    replace (Z.min ey (Z.min ex ey)) with (Z.min ex ey) in Ha by lia.
    cbn [binary_normalize Z.add].
    apply binary_round_lower.
    + lia.
    + cbn in Hy. unfold bounded, canonical_mantissa in Hy.
      apply andb_prop in Hy. destruct Hy as [Hy _]. now apply Z.eqb_eq in Hy.
    + lia.
    + rewrite Pos2Z.inj_add, <- Ha. lia.
Qed.

Lemma SFleb_trans x y z :
  SFnonneg x = true -> SFnonneg y = true -> SFnonneg z = true ->
  SFleb x y = true -> SFleb y z = true -> SFleb x z = true.
Proof.
  destruct x as [ sx | [ | ] | | [ | ] mx ex ]; try discriminate;
    destruct y as [ sy | [ | ] | | [ | ] my ey ]; try discriminate;
    destruct z as [ sz | [ | ] | | [ | ] mz ez ]; try discriminate; intros _ _ _;
    try reflexivity; try discriminate.
  unfold SFleb, SFcompare.
  change (PosDef.Pos.compare_cont Eq) with Pos.compare.
  destruct (Z.compare_spec ex ey), (Z.compare_spec ey ez), (Z.compare_spec ex ez);
    try lia; try discriminate; trivial.
  destruct (Pos.compare_spec mx my), (Pos.compare_spec my mz), (Pos.compare_spec mx mz);
    try lia; try discriminate; trivial.
Qed.

Lemma add_lower x y :
  (0 <=? x)%float = true -> (0 <=? y)%float = true -> (x <=? x + y)%float = true.
Proof.
  rewrite !Binary64.leb_zero, leb_spec, add_spec.
  apply SFadd_lower; apply Prim2SF_valid.
Qed.

Lemma add_lower_r x y :
  (0 <=? x)%float = true -> (0 <=? y)%float = true -> (y <=? x + y)%float = true.
Proof.
  rewrite !Binary64.leb_zero, leb_spec, add_spec.
  apply SFadd_lower_r; apply Prim2SF_valid.
Qed.

Lemma leb_trans x y z :
  (0 <=? x)%float = true -> (0 <=? y)%float = true -> (0 <=? z)%float = true ->
  (x <=? y)%float = true -> (y <=? z)%float = true -> (x <=? z)%float = true.
Proof.
  rewrite !Binary64.leb_zero, !leb_spec. apply SFleb_trans.
Qed.

End Binary64Order.

(** X23. The total is never below the subtotal: for amounts that are not
    negative, a finite tax rate that is not negative and a finite
    subtotal, binary64 rounding included (the tax amount may overflow to
    infinity, and then so does the total). *)
Theorem total_at_least_subtotal items taxRate :
  Forall (fun item => (0 <=? amount item) = true) items ->
  (0 <=? taxRate) = true -> is_finite taxRate = true ->
  is_finite (subtotal (calculateTotals items taxRate)) = true ->
  (subtotal (calculateTotals items taxRate) <=? total (calculateTotals items taxRate)) = true.
Proof.
  intros Ha Ht Htf Hfin. unfold calculateTotals in *. cbn [subtotal total] in *.
  assert (Hsub : (0 <=? fold_left (fun sum item => sum + amount item) items 0) = true).
  { apply Binary64.finite_nonneg; trivial.
    apply fold_amount_nonneg_or_nan; [ | reflexivity ].
    revert Ha. apply Forall_impl. intros item H. now rewrite H. }
  destruct (Binary64.div_hundred_finite taxRate Htf) as [Hrf Hrn].
  apply Binary64Order.add_lower; trivial.
  apply Binary64.mul_nonneg; auto.
Qed.

Lemma total_at_least_subtotal_witness :
  (subtotal (calculateTotals [mkItem "1" "Design" 3 0.1 (3 * 0.1)] 10)
   <=? total (calculateTotals [mkItem "1" "Design" 3 0.1 (3 * 0.1)] 10)) = true.
Proof.
  apply (total_at_least_subtotal [mkItem "1" "Design" 3 0.1 (3 * 0.1)] 10);
    try reflexivity.
  constructor; [ reflexivity | constructor ].
Defined.

Lemma fold_amount_lower items : forall acc,
  Forall (fun item => (0 <=? amount item) = true) items ->
  (0 <=? acc) = true ->
  (0 <=? fold_left (fun sum item => sum + amount item) items acc) = true
  /\ (acc <=? fold_left (fun sum item => sum + amount item) items acc) = true
  /\ forall item, In item items ->
       (amount item <=? fold_left (fun sum item => sum + amount item) items acc) = true.
Proof.
  induction items as [ | item items IH ]; intros acc Ha Hacc; cbn [fold_left].
  - split; trivial. split; [ | intros item [] ].
    rewrite leb_spec. rewrite Binary64.leb_zero in Hacc.
    destruct (Prim2SF acc) as [ s | [ | ] | | [ | ] m e ]; try discriminate; trivial.
    unfold SFleb, SFcompare. now rewrite Z.compare_refl, Pos.compare_cont_refl.
  - inversion Ha as [ | ? ? Hi Hrest ]; subst.
    pose proof (Binary64.add_nonneg acc (amount item) Hacc Hi) as Hsum.
    destruct (IH (acc + amount item) Hrest Hsum) as (H0 & Hle & Hin).
    split; trivial. split.
    + apply (Binary64Order.leb_trans _ (acc + amount item)); trivial.
      now apply Binary64Order.add_lower.
    + intros x [ <- | Hx ]; [ | now apply Hin ].
      apply (Binary64Order.leb_trans _ (acc + amount item)); trivial.
      now apply Binary64Order.add_lower_r.
Qed.

(** X24. With amounts that are not negative, the subtotal is not
    negative, is never [NaN], and is at least the amount of every row,
    whatever rounding the additions performed. *)
Theorem subtotal_at_least_each_amount items taxRate :
  Forall (fun item => (0 <=? amount item) = true) items ->
  (0 <=? subtotal (calculateTotals items taxRate)) = true
  /\ forall item, In item items ->
       (amount item <=? subtotal (calculateTotals items taxRate)) = true.
Proof.
  intros Ha. unfold calculateTotals. cbn [subtotal].
  destruct (fold_amount_lower items 0 Ha eq_refl) as (H0 & _ & Hin). auto.
Qed.

Lemma subtotal_at_least_each_amount_witness :
  (0 <=? subtotal (calculateTotals [mkItem "1" "Design" 3 0.1 (3 * 0.1);
                                    mkItem "2" "Hosting" 1 1e300 (1 * 1e300)] 10)) = true
  /\ (amount (mkItem "1" "Design" 3 0.1 (3 * 0.1))
      <=? subtotal (calculateTotals [mkItem "1" "Design" 3 0.1 (3 * 0.1);
                                     mkItem "2" "Hosting" 1 1e300 (1 * 1e300)] 10)) = true.
Proof.
  destruct (subtotal_at_least_each_amount
              [mkItem "1" "Design" 3 0.1 (3 * 0.1);
               mkItem "2" "Hosting" 1 1e300 (1 * 1e300)] 10) as [H0 Hin].
  - repeat constructor.
  - split; [ exact H0 | ]. apply Hin. left. reflexivity.
Defined.
